(** * The Psychic Poker Player (python/poker.py): a shallow embedding

  The Python program is embedded function by function.  Python integers
  are [Z], list positions and lengths are [nat], strings are [string].
  A Python exception is modelled by [None] in the [option] monad, so a
  definition returns [Some] exactly where the Python code returns
  normally. *)

From Stdlib Require Import String Ascii ZArith List Bool Arith Lia Permutation.
Import ListNotations.
Open Scope string_scope.
Open Scope Z_scope.
Open Scope list_scope.

(* ================================================================== *)
(** ** Exceptions as [option] *)

Notation "x <- a ;; b" :=
  (match a with Some x => b | None => None end)
  (at level 61, a at next level, right associativity, only parsing).

Notation "' p <- a ;; b" :=
  (match a with Some p => b | None => None end)
  (at level 61, p pattern, a at next level, right associativity, only parsing).

(** Python's short-circuit [a or b] and [a and b] over expressions that
  may raise: the right operand is evaluated only when needed. *)
Definition por (a b : option bool) : option bool :=
  x <- a ;; if x then Some true else b.

Definition pand (a b : option bool) : option bool :=
  x <- a ;; if x then b else Some false.

(* ================================================================== *)
(** ** Python strings *)

Module PyStr.

Fixpoint chars (s : string) : list ascii :=
  match s with
  | EmptyString => []
  | String c s' => c :: chars s'
  end.

(** [s[i]] for a Python integer [i]: negative indexes count from the
    end, anything out of range raises IndexError. *)
Definition index (s : string) (i : Z) : option ascii :=
  let n := Z.of_nat (String.length s) in
  if (0 <=? i) && (i <? n) then nth_error (chars s) (Z.to_nat i)
  else if (- n <=? i) && (i <? 0) then nth_error (chars s) (Z.to_nat (n + i))
  else None.

(** [str.isspace] on one character (ASCII, C locale):
    space, \t, \n, \v, \f, \r. *)
Definition isspace (c : ascii) : bool :=
  let n := nat_of_ascii c in
  ((n =? 32) || ((9 <=? n) && (n <=? 13)))%nat.

(** [str.upper] on one character (ASCII, C locale). *)
Definition upper_char (c : ascii) : ascii :=
  let n := nat_of_ascii c in
  if ((97 <=? n) && (n <=? 122))%nat then ascii_of_nat (n - 32) else c.

Fixpoint upper (s : string) : string :=
  match s with
  | EmptyString => EmptyString
  | String c s' => String (upper_char c) (upper s')
  end.

(** [s.split()]: maximal runs of non-whitespace characters.  [cur] is
    the token being read. *)
Fixpoint split_from (cur : string) (s : string) : list string :=
  match s with
  | EmptyString =>
      match cur with EmptyString => [] | _ => [cur] end
  | String c s' =>
      if isspace c then
        match cur with
        | EmptyString => split_from EmptyString s'
        | _ => cur :: split_from EmptyString s'
        end
      else split_from (cur ++ String c EmptyString)%string s'
  end.

Definition split (s : string) : list string := split_from EmptyString s.

Fixpoint lstrip (s : string) : string :=
  match s with
  | EmptyString => EmptyString
  | String c s' => if isspace c then lstrip s' else s
  end.

(** Drops the trailing whitespace: a character is kept when it is not
    a space or something kept follows it. *)
Fixpoint rstrip (s : string) : string :=
  match s with
  | EmptyString => EmptyString
  | String c s' =>
      match rstrip s' with
      | EmptyString => if isspace c then EmptyString else String c EmptyString
      | r => String c r
      end
  end.

Definition strip (s : string) : string := rstrip (lstrip s).

End PyStr.

(* ================================================================== *)
(** ** class Card *)

(** [enumerate(xs, 1)] *)
Fixpoint enumerate_from {A} (i : Z) (xs : list A) : list (Z * A) :=
  match xs with
  | [] => []
  | x :: xs' => (i, x) :: enumerate_from (i + 1) xs'
  end.

(** A Python [dict] built from a list of pairs: a later pair with the
  same key overrides an earlier one, so the lookup takes the last
  binding. *)
Fixpoint dict_get (d : list (ascii * Z)) (k : ascii) : option Z :=
  match d with
  | [] => None
  | (k', v) :: d' =>
    match dict_get d' k with
    | Some v' => Some v'
    | None => if Ascii.eqb k' k then Some v else None
    end
  end.

(** A [Card] object.  The class defines neither [__eq__] nor [__hash__],
  so Python compares and hashes cards by object identity: [oid] is the
  identity of the object (its address), [card] its only attribute. *)
Module Card.

Record t : Type := mk { oid : nat; card : Z }.

Definition _FIG : string := "A23456789TJQK".
Definition _SUIT : string := "CDHS".

Definition _CARD : list (ascii * Z) :=
  map (fun '(i, figure) => (figure, Z.shiftl i 4))
      (enumerate_from 1 (PyStr.chars _FIG))
  ++ map (fun '(i, suit) => (suit, i))
      (enumerate_from 1 (PyStr.chars _SUIT)).

(** [Card(card)] building the object at address [o]:
    [self.card = self._CARD[card[0]] + self._CARD[card[1]]]. *)
Definition init (o : nat) (tok : string) : option t :=
  c0 <- PyStr.index tok 0 ;;
  v0 <- dict_get _CARD c0 ;;
  c1 <- PyStr.index tok 1 ;;
  v1 <- dict_get _CARD c1 ;;
  Some (mk o (v0 + v1)).

Definition suit_only (c : t) : Z := Z.land (card c) 15 - 1.

Definition figure_only (c : t) : Z := Z.shiftr (card c) 4 - 1.

(** [Card.__str__] *)
Definition str (c : t) : option string :=
  f <- PyStr.index _FIG (figure_only c) ;;
  s <- PyStr.index _SUIT (suit_only c) ;;
  Some (String f (String s EmptyString)).

End Card.


(* ================================================================== *)
(** ** Python lists *)

(** [xs[i] = v] at a position inside the list. *)
Fixpoint list_set {A} (xs : list A) (i : nat) (v : A) : list A :=
  match xs, i with
  | [], _ => []
  | _ :: xs', O => v :: xs'
  | x :: xs', S i' => x :: list_set xs' i' v
  end.

(** [xs.index(x)] on strings: the first position holding [x],
    ValueError when there is none. *)
Fixpoint list_index (xs : list string) (x : string) : option nat :=
  match xs with
  | [] => None
  | y :: xs' =>
      if String.eqb y x then Some O
      else i <- list_index xs' x ;; Some (S i)
  end.

(** [sorted(xs, reverse=True)] on integers: the descending rearrangement
    of [xs], built by insertion. *)
Fixpoint insert_desc (x : Z) (l : list Z) : list Z :=
  match l with
  | [] => [x]
  | y :: l' => if y <? x then x :: l else y :: insert_desc x l'
  end.

Definition sorted_reverse (l : list Z) : list Z :=
  fold_right insert_desc [] l.

(** [xs == ys] on lists of positions. *)
Fixpoint list_eqb (xs ys : list nat) : bool :=
  match xs, ys with
  | [], [] => true
  | x :: xs', y :: ys' => (x =? y)%nat && list_eqb xs' ys'
  | _, _ => false
  end.

(** [len(set(xs))] on integers. *)
Definition len_set (xs : list Z) : nat := length (nodup Z.eq_dec xs).

(* ================================================================== *)
(** ** class Hand *)

Module Hand.

(** The attributes of a [Hand] object: the cards and the cached rank
    ([None] until it is evaluated). *)
Record t : Type := mk { cards : list Card.t; rank : option string }.

Definition _RANK : list string :=
  PyStr.split
    "highest-card one-pair two-pairs three-of-a-kind straight flush full-house four-of-a-kind straight-flush".

(** [Hand(cards)]: [list(cards)] copies, so the hand shares nothing
    with its argument. *)
Definition init (cs : list Card.t) : t := mk cs None.

(** [replace(index, c)] at a position counted from the front, as
    [best_combinations] calls it with the positions [discard] yields:
    IndexError at or after the end of the list.  ([Hand_replace] below
    is the method for any integer index.) *)
Definition replace (self : t) (index : nat) (c : Card.t) : option t :=
  if (index <? length (cards self))%nat
  then Some (mk (list_set (cards self) index c) None)
  else None.

(** [figures[i]] *)
Definition fig (figures : list Z) (i : nat) : option Z := nth_error figures i.

(** [figures[i] == figures[j]] *)
Definition fig_eq (figures : list Z) (i j : nat) : option bool :=
  a <- fig figures i ;; b <- fig figures j ;; Some (a =? b).

(** The loop of [is_straight] that collects the breaks. *)
Fixpoint stops_loop (figures : list Z) (ixs : list nat) (stops : list nat)
  : option (list nat) :=
  match ixs with
  | [] => Some stops
  | i :: ixs' =>
      a <- fig figures (i - 1) ;;
      b <- fig figures i ;;
      stops_loop figures ixs' (if a =? b + 1 then stops else stops ++ [i])
  end.

Definition stops_of (figures : list Z) : option (list nat) :=
  stops_loop figures [1; 2; 3; 4]%nat [].

(** The second disjunct of the value [is_straight] returns:
    [stops == [4] and figures[0] == 12 and figures[4] == 0]. *)
Definition special_case (figures : list Z) (stops : list nat) : option bool :=
  pand (Some (list_eqb stops [4%nat]))
       (pand (a <- fig figures 0 ;; Some (a =? 12))
             (b <- fig figures 4 ;; Some (b =? 0))).

Definition is_straight (figures : list Z) : option bool :=
  stops <- stops_of figures ;;
  por (Some (list_eqb stops []))
      (special_case figures stops).

Definition evaluate (self : t) : option string :=
  let suits := len_set (map Card.suit_only (cards self)) in
  let figures := sorted_reverse (map Card.figure_only (cards self)) in
  if (suits =? 1)%nat then
    b <- is_straight figures ;;
    Some (if b then "straight-flush" else "flush")
  else
  c4 <- por (fig_eq figures 0 3) (fig_eq figures 1 4) ;;
  if c4 then Some "four-of-a-kind" else
  c32 <- pand (fig_eq figures 0 2) (fig_eq figures 3 4) ;;
  if c32 then Some "full-house" else
  c23 <- pand (fig_eq figures 0 1) (fig_eq figures 2 4) ;;
  if c23 then Some "full-house" else
  st <- is_straight figures ;;
  if st then Some "straight" else
  c3 <- por (fig_eq figures 0 2)
            (por (fig_eq figures 1 3) (fig_eq figures 2 4)) ;;
  if c3 then Some "three-of-a-kind" else
  let distinct := len_set figures in
  if (distinct =? 3)%nat then Some "two-pairs" else
  if (distinct =? 4)%nat then Some "one-pair" else
  Some "highest-card".

(** [not self.rank]: true for [None] and for the empty string. *)
Definition not_rank (r : option string) : bool :=
  match r with
  | None => true
  | Some EmptyString => true
  | Some _ => false
  end.

(** [if not self.rank: self.rank = self.evaluate()]: the object after
    the statement. *)
Definition fill_rank (self : t) : option t :=
  if not_rank (rank self)
  then r <- evaluate self ;; Some (mk (cards self) (Some r))
  else Some self.

(** [__str__]: what is returned, and the object with its cache filled.
    ([None] is not a string: returning it makes [str] raise.) *)
Definition str (self : t) : option (string * t) :=
  self' <- fill_rank self ;;
  r <- rank self' ;;
  Some (r, self').

(** [__int__] *)
Definition int (self : t) : option (nat * t) :=
  self' <- fill_rank self ;;
  r <- rank self' ;;
  i <- list_index _RANK r ;;
  Some (i, self').

(** [__gt__]: [int(self) > int(other)], on two different objects. *)
Definition gt (self other : t) : option (bool * t * t) :=
  '(i, self') <- int self ;;
  '(j, other') <- int other ;;
  Some ((j <? i)%nat, self', other').

End Hand.

(* ================================================================== *)
(** ** The generator [discard] *)

(** One run of the [while True] loop from the state [(s, w)], returning
    the lists yielded.  The consumer reads a yielded list before the
    generator resumes, so what it sees is the value of [s] at the
    [yield]; [fuel] bounds the number of iterations. *)
Fixpoint discard_loop (fuel : nat) (n : nat) (s : list nat) (w : nat)
  : option (list (list nat)) :=
  match fuel with
  | O => None
  | S fuel' =>
      if (w <? 5)%nat then
        (* for i in xrange(w, 5): first iteration, then break *)
        let s' := s ++ [w] in
        rest <- discard_loop fuel' n s' (w + 1)%nat ;;
        Some (if (length s' =? n)%nat then s' :: rest else rest)
      else
        (* the for loop ran no iteration: its else branch *)
        match s with
        | [] => Some []
        | _ => discard_loop fuel' n (removelast s) (last s O + 1)%nat
        end
  end.

Definition discard_fuel : nat := 64.

Definition discard (n : nat) : option (list (list nat)) :=
  if (0 <? n)%nat then discard_loop discard_fuel n [] O else Some [].

(* ================================================================== *)
(** ** [best_combinations] *)

(** [for n, r in enumerate(variation): hand.replace(r, cards[5+n])] *)
Fixpoint replace_loop (hand : Hand.t) (cards : list Card.t)
  (n : nat) (variation : list nat) : option Hand.t :=
  match variation with
  | [] => Some hand
  | r :: variation' =>
      c <- nth_error cards (5 + n) ;;
      hand' <- Hand.replace hand r c ;;
      replace_loop hand' cards (S n) variation'
  end.

(** [if hand > best: best = hand] *)
Definition keep_best (hand best : Hand.t) : option Hand.t :=
  '(g, hand', best') <- Hand.gt hand best ;;
  Some (if g then hand' else best').

(** The body of the inner loop for one [variation]. *)
Definition try_variation (five cards : list Card.t) (best : Hand.t)
  (variation : list nat) : option Hand.t :=
  hand <- replace_loop (Hand.init five) cards O variation ;;
  keep_best hand best.

Fixpoint for_variations (five cards : list Card.t) (best : Hand.t)
  (vs : list (list nat)) : option Hand.t :=
  match vs with
  | [] => Some best
  | v :: vs' =>
      best' <- try_variation five cards best v ;;
      for_variations five cards best' vs'
  end.

Fixpoint for_d (five cards : list Card.t) (best : Hand.t) (ds : list nat)
  : option Hand.t :=
  match ds with
  | [] => Some best
  | d :: ds' =>
      vs <- discard d ;;
      best' <- for_variations five cards best vs ;;
      for_d five cards best' ds'
  end.

Definition best_combinations (cards : list Card.t) : option Hand.t :=
  let five := firstn 5 cards in
  for_d five cards (Hand.init five) [1; 2; 3; 4; 5]%nat.

(* ================================================================== *)
(** ** Lines *)

(** A value that is either [False] or something else. *)
Inductive or_false (A : Type) : Type :=
| PyFalse : or_false A
| PyVal : A -> or_false A.
Arguments PyFalse {A}.
Arguments PyVal {A} _.

(** [len(set(cards))]: cards are hashed and compared by identity. *)
Definition len_set_cards (cards : list Card.t) : nat :=
  length (nodup Nat.eq_dec (map Card.oid cards)).

Definition validate (cards : list Card.t) : or_false (list Card.t) :=
  if (len_set_cards cards =? 10)%nat then PyVal cards else PyFalse.

(** [map(Card, tokens)]: one new object per token, at addresses
    [o], [o+1], ... *)
Fixpoint map_Card (o : nat) (tokens : list string) : option (list Card.t) :=
  match tokens with
  | [] => Some []
  | tok :: tokens' =>
      c <- Card.init o tok ;;
      cs <- map_Card (S o) tokens' ;;
      Some (c :: cs)
  end.

(** [convert]: any exception gives the empty list.  The cards of a line
    are alive together, so their addresses differ; cards of different
    lines never meet. *)
Definition convert (line : string) : list Card.t :=
  match map_Card O (PyStr.split (PyStr.upper line)) with
  | Some cs => cs
  | None => []
  end.

(** What [process] returns: [False], an empty list or a hand. *)
Inductive processed : Type :=
| PFalse : processed
| PEmpty : processed
| PHand : Hand.t -> processed.

Definition process (line : string) : option processed :=
  match validate (convert line) with
  | PyFalse => Some PFalse
  | PyVal [] => Some PEmpty
  | PyVal cards => h <- best_combinations cards ;; Some (PHand h)
  end.

(** [print process(...) or 'Invalid line']: the line printed. *)
Definition print_or_invalid (r : processed) : option string :=
  match r with
  | PFalse | PEmpty => Some "Invalid line"
  | PHand h => '(s, _) <- Hand.str h ;; Some s
  end.

(** [read_input] on the lines [readline] returns one after the other
    (the empty string stands for the end of the file): the lines
    printed. *)
Fixpoint read_input (fd : list string) : option (list string) :=
  match fd with
  | [] => Some []
  | line :: fd' =>
      match line with
      | EmptyString => Some []
      | _ =>
          r <- process (PyStr.strip line) ;;
          out <- print_or_invalid r ;;
          outs <- read_input fd' ;;
          Some (out :: outs)
      end
  end.

(* ================================================================== *)
(** ** The sample data of the source's [test] *)

Definition sample_lines : list string :=
  [ "TH JH QC QD QS QH KH AH 2S 6S";
    "2H 2S 3H 3S 3C 2D 3D 6C 9C TH";
    "2H 2S 3H 3S 3C 2D 9C 3D 6C TH";
    "2H AD 5H AC 7H AH 6H 9H 4H 3C";
    "AC 2D 9C 3S KD 5S 4D KS AS 4C";
    "KS AH 2H 3C 4H KC 2C TC 2D AS";
    "AH 2C 9S AD 3C QH KS JS JD KD";
    "6C 9C 8C 2D 7C 2H TC 4C 9S AH";
    "3D 5S 2H QD TD 6S KH 9H AD QH" ].

(* ================================================================== *)
(** ** Definitions used to state the properties *)

(** Descending order: every element is at least all the later ones. *)
Fixpoint descending (l : list Z) : Prop :=
  match l with
  | [] => True
  | x :: l' => Forall (fun y => y <= x) l' /\ descending l'
  end.

(** The token built from a figure and a suit character. *)
Definition token (f s : ascii) : string := String f (String s EmptyString).

(** The straight rule on five descending ranks: every neighbour is one
    less, or the only break is before the last rank, the first rank is
    12 and the last is 0. *)
Definition straight_rule (r0 r1 r2 r3 r4 : Z) : bool :=
  let b1 := r0 =? r1 + 1 in
  let b2 := r1 =? r2 + 1 in
  let b3 := r2 =? r3 + 1 in
  let b4 := r3 =? r4 + 1 in
  (b1 && b2 && b3 && b4)
  || (b1 && b2 && b3 && negb b4 && (r0 =? 12) && (r4 =? 0)).

(** The classification in its order of precedence, from the number of
    suits, the five descending ranks and the number of distinct ranks. *)
Definition classify (suits : nat) (r0 r1 r2 r3 r4 : Z) (distinct : nat)
  : string :=
  if (suits =? 1)%nat then
    if straight_rule r0 r1 r2 r3 r4 then "straight-flush" else "flush"
  else if (r0 =? r3) || (r1 =? r4) then "four-of-a-kind"
  else if ((r0 =? r2) && (r3 =? r4)) || ((r0 =? r1) && (r2 =? r4))
       then "full-house"
  else if straight_rule r0 r1 r2 r3 r4 then "straight"
  else if (r0 =? r2) || (r1 =? r3) || (r2 =? r4) then "three-of-a-kind"
  else if (distinct =? 3)%nat then "two-pairs"
  else if (distinct =? 4)%nat then "one-pair"
  else "highest-card".

(** The sorted figures of a hand, as [evaluate] computes them. *)
Definition figures_of (h : Hand.t) : list Z :=
  sorted_reverse (map Card.figure_only (Hand.cards h)).

(** The figures of the wheel A-2-3-4-5 and of T-J-Q-K-A, descending. *)
Definition wheel_figures : list Z := [4; 3; 2; 1; 0].
Definition broadway_figures : list Z := [12; 11; 10; 9; 0].

(** Two hands of the suits C, D, H, S, C: the wheel and T-J-Q-K-A. *)
Definition wheel_hand : Hand.t := Hand.init (convert "AC 2D 3H 4S 5C").
Definition broadway_hand : Hand.t := Hand.init (convert "TC JD QH KS AC").

(** The special disjunct of [is_straight] on a list of figures. *)
Definition special_disjunct (figures : list Z) : option bool :=
  stops <- Hand.stops_of figures ;; Hand.special_case figures stops.

(** The rank index of five cards: [int] of a new hand holding them. *)
Definition rank_of (cs : list Card.t) : option nat :=
  '(i, _) <- Hand.int (Hand.init cs) ;; Some i.

(** The same as a number, 0 where [int] would raise. *)
Definition rank_nat (cs : list Card.t) : nat :=
  match rank_of cs with Some i => i | None => O end.

(** A hand object in a state the search can meet: five cards, and a
    cache that is empty or holds what [evaluate] returns. *)
Definition coherent (h : Hand.t) : Prop :=
  length (Hand.cards h) = 5%nat /\
  (Hand.rank h = None \/ Hand.evaluate h = Hand.rank h).

(** Keeping the better of two card lists, the later one only when it
    is strictly better. *)
Definition pick (best cand : list Card.t) : list Card.t :=
  if (rank_nat best <? rank_nat cand)%nat then cand else best.

(** All the sub-lists of a list, each in the order of the list: for
    [0; 1; 2; 3; 4] the subsets of the hand positions, each as its
    positions in increasing order. *)
Fixpoint sublists (l : list nat) : list (list nat) :=
  match l with
  | [] => [[]]
  | x :: l' => map (cons x) (sublists l') ++ sublists l'
  end.

Definition position_subsets : list (list nat) := sublists [0; 1; 2; 3; 4]%nat.

(** [v] is strictly increasing with all its elements in [lo, hi). *)
Fixpoint increasing_in (lo hi : nat) (v : list nat) : Prop :=
  match v with
  | [] => True
  | x :: v' => (lo <= x)%nat /\ (x < hi)%nat /\ increasing_in (S x) hi v'
  end.

(** The hand after the positions [chosen] are replaced: walking the
    hand from position [i] upwards, a chosen position takes the next
    card from the front of the deck, any other keeps its card. *)
Fixpoint substitute_from (i : nat) (hand deck : list Card.t)
  (chosen : list nat) : list Card.t :=
  match hand with
  | [] => []
  | c :: hand' =>
      if existsb (Nat.eqb i) chosen then
        match deck with
        | d :: deck' => d :: substitute_from (S i) hand' deck' chosen
        | [] => c :: substitute_from (S i) hand' deck chosen
        end
      else c :: substitute_from (S i) hand' deck chosen
  end.

Definition substitute (hand deck : list Card.t) (chosen : list nat)
  : list Card.t :=
  substitute_from O hand deck chosen.

(** The 32 candidate hands of a record. *)
Definition candidates (cards : list Card.t) : list (list Card.t) :=
  map (substitute (firstn 5 cards) (skipn 5 cards)) position_subsets.

(** The loop of [discard] without its [yield]: every list the loop
    builds by an [append], in the order it builds them. *)
Fixpoint discard_trace (fuel : nat) (s : list nat) (w : nat)
  : option (list (list nat)) :=
  match fuel with
  | O => None
  | S fuel' =>
      if (w <? 5)%nat then
        rest <- discard_trace fuel' (s ++ [w]) (w + 1)%nat ;;
        Some ((s ++ [w]) :: rest)
      else
        match s with
        | [] => Some []
        | _ => discard_trace fuel' (removelast s) (last s O + 1)%nat
        end
  end.

(** What the search enumerates: the empty list for the hand it starts
    from, then the lists [discard] yields for 1 to 5 cards. *)
Definition enumerated : option (list (list nat)) :=
  v1 <- discard 1 ;; v2 <- discard 2 ;; v3 <- discard 3 ;;
  v4 <- discard 4 ;; v5 <- discard 5 ;;
  Some ([] :: v1 ++ v2 ++ v3 ++ v4 ++ v5).

(** The nine categories from the weakest to the strongest. *)
Definition rank_names : list string :=
  [ "highest-card"; "one-pair"; "two-pairs"; "three-of-a-kind"; "straight";
    "flush"; "full-house"; "four-of-a-kind"; "straight-flush" ].

(** The cards of the first sample line, and two hands made from it. *)
Definition sample_cards : list Card.t :=
  convert "TH JH QC QD QS QH KH AH 2S 6S".
Definition sample_hand : Hand.t := Hand.init (firstn 5 sample_cards).
Definition sample_deck_hand : Hand.t := Hand.init (skipn 5 sample_cards).

(** The end of a line as [readline] returns it. *)
Definition newline : string := String (ascii_of_nat 10) EmptyString.

(** A line of eleven different cards. *)
Definition eleven_line : string :=
  ("TH JH QC QD QS QH KH AH 2S 6S 7S" ++ newline)%string.

(** The line of the source's sample with its last card replaced by a
    second TH. *)
Definition duplicate_line : string :=
  ("TH JH QC QD QS QH KH AH 2S TH" ++ newline)%string.

(** The first line of the sample input, and the line the sample output
    has for it. *)
Definition first_sample_line : string :=
  ("TH JH QC QD QS QH KH AH 2S 6S" ++ newline)%string.
Definition first_sample_output : string :=
  "Hand: TH JH QC QD QS Deck: QH KH AH 2S 6S Best hand: straight-flush".

(** The sample output names the ranks from the strongest down. *)
Definition rank_names_descending : list string := rev rank_names.

(* ================================================================== *)
(** ** More definitions for the properties of the rest of the code *)

(** The characters of the table [_CARD]: the figures, then the suits. *)
Definition card_chars : list ascii :=
  PyStr.chars Card._FIG ++ PyStr.chars Card._SUIT.

(** Some token of the list does not make a card. *)
Definition some_token_fails (tokens : list string) : Prop :=
  exists tok, In tok tokens /\ Card.init O tok = None.

(** [Hand.__ne__] on two hand objects: [str(self) != str(other)]. *)
Definition Hand_ne (self other : Hand.t) : option (bool * Hand.t * Hand.t) :=
  '(a, self') <- Hand.str self ;;
  '(b, other') <- Hand.str other ;;
  Some (negb (String.eqb a b), self', other').

(** The ways to split a hand into the cards kept and the number of
    cards discarded, in the order of [sublists]. *)
Fixpoint splits (hand : list Card.t) : list (list Card.t * nat) :=
  match hand with
  | [] => [([], O)]
  | c :: hand' =>
      map (fun '(kept, n) => (kept, S n)) (splits hand')
      ++ map (fun '(kept, n) => (c :: kept, n)) (splits hand')
  end.

(** A candidate hand as a collection of cards: the cards kept and the
    first [n] cards of the deck. *)
Definition kept_and_drawn (deck : list Card.t) (kn : list Card.t * nat)
  : list Card.t :=
  fst kn ++ firstn (snd kn) deck.

(** How many cards of the hand have the figure [f]. *)
Definition figure_count (h : Hand.t) (f : Z) : nat :=
  count_occ Z.eq_dec (map Card.figure_only (Hand.cards h)) f.

(** All the cards of the hand have the same suit. *)
Definition one_suit (h : Hand.t) : Prop :=
  exists s, Forall (fun c => Card.suit_only c = s) (Hand.cards h).

(** The number of places where two neighbours of five ranks differ. *)
Definition breaks (r0 r1 r2 r3 r4 : Z) : nat :=
  ((if Z.eq_dec r0 r1 then 0 else 1) + (if Z.eq_dec r1 r2 then 0 else 1)
   + (if Z.eq_dec r2 r3 then 0 else 1) + (if Z.eq_dec r3 r4 then 0 else 1))%nat.

(** Five figures in a row, from the highest down to [k]. *)
Definition run_from (k : Z) : list Z := [k + 4; k + 3; k + 2; k + 1; k].

(** A line made of whitespace only. *)
Fixpoint blank (s : string) : bool :=
  match s with
  | EmptyString => true
  | String c s' => PyStr.isspace c && blank s'
  end.

(** [str.lower] on one character and on a string (ASCII). *)
Definition lower_char (c : ascii) : ascii :=
  let n := nat_of_ascii c in
  if ((65 <=? n) && (n <=? 90))%nat then ascii_of_nat (n + 32) else c.

Fixpoint lower (s : string) : string :=
  match s with
  | EmptyString => EmptyString
  | String c s' => String (lower_char c) (lower s')
  end.

(** A card token as the input format has it: a figure of [_FIG]
    followed by a suit of [_SUIT]. *)
Definition card_token (t : string) : Prop :=
  exists f s,
    In f (PyStr.chars Card._FIG) /\ In s (PyStr.chars Card._SUIT) /\
    t = token f s.

(** [spelt] is the card token [t] written in any mix of upper and lower
    case. *)
Definition spelling_of (spelt t : string) : Prop :=
  card_token t /\ PyStr.upper spelt = t.

(** Tokens written on a line, one space between two of them. *)
Fixpoint join_spaces (tokens : list string) : string :=
  match tokens with
  | [] => EmptyString
  | [t] => t
  | t :: rest => (t ++ " " ++ join_spaces rest)%string
  end.

(** The first sample line in lower case, its tokens and their upper
    case forms. *)
Definition lower_sample_tokens : list string :=
  ["th"; "jh"; "qc"; "qd"; "qs"; "qh"; "kh"; "ah"; "2s"; "6s"].
Definition upper_sample_tokens : list string :=
  ["TH"; "JH"; "QC"; "QD"; "QS"; "QH"; "KH"; "AH"; "2S"; "6S"].

(** [Hand.replace(index, c)] for any Python integer [index]:
    [self.cards[index] = c] counts a negative index from the end of the
    list and raises IndexError when the index is below [-len] or not
    below [len]; then [self.rank = None]. *)
Definition Hand_replace (self : Hand.t) (index : Z) (c : Card.t)
  : option Hand.t :=
  let n := Z.of_nat (length (Hand.cards self)) in
  if (0 <=? index) && (index <? n) then
    Some (Hand.mk (list_set (Hand.cards self) (Z.to_nat index) c) None)
  else if (- n <=? index) && (index <? 0) then
    Some (Hand.mk (list_set (Hand.cards self) (Z.to_nat (n + index)) c) None)
  else None.

(** The position of the list a Python index stands for. *)
Definition position_of (n : nat) (index : Z) : nat :=
  Z.to_nat (if index <? 0 then Z.of_nat n + index else index).

(* ================================================================== *)
(** * Properties *)

(** ** Strings *)

Lemma upper_char_idem (c : ascii) :
  PyStr.upper_char (PyStr.upper_char c) = PyStr.upper_char c.
Proof.
  destruct c as [[] [] [] [] [] [] [] []]; reflexivity.
Qed.

Lemma upper_idem (s : string) : PyStr.upper (PyStr.upper s) = PyStr.upper s.
Proof.
  induction s as [|c s IH]; simpl.
  - reflexivity.
  - now rewrite upper_char_idem, IH.
Qed.

Example RANK_value :
  Hand._RANK
  = [ "highest-card"; "one-pair"; "two-pairs"; "three-of-a-kind"; "straight";
      "flush"; "full-house"; "four-of-a-kind"; "straight-flush" ].
Proof. reflexivity. Qed.

(** ** Cards *)

Example card_TH : Card.init 0 "TH" = Some (Card.mk 0 163).
Proof. reflexivity. Qed.

Example card_str_TH : Card.str (Card.mk 0 163) = Some "TH".
Proof. reflexivity. Qed.

(** The constructor looks both characters up in one table: it also
    accepts two suits. *)
Example card_CC : Card.init 0 "CC" = Some (Card.mk 0 2).
Proof. reflexivity. Qed.

(** C10: for every two-character token whose figure is in A23456789TJQK
    and whose suit is in CDHS, the card parses, printing it gives the
    token back, figure_only is the position of the figure in 0..12
    (A is 0, K is 12) and suit_only the position of the suit in 0..3
    (C is 0, S is 3). *)
Theorem card_roundtrip (o : nat) (f s : ascii) :
  In f (PyStr.chars Card._FIG) ->
  In s (PyStr.chars Card._SUIT) ->
  exists c,
    Card.init o (token f s) = Some c /\
    Card.str c = Some (token f s) /\
    0 <= Card.figure_only c <= 12 /\
    0 <= Card.suit_only c <= 3 /\
    nth_error (PyStr.chars Card._FIG) (Z.to_nat (Card.figure_only c)) = Some f /\
    nth_error (PyStr.chars Card._SUIT) (Z.to_nat (Card.suit_only c)) = Some s /\
    (f = "A"%char -> Card.figure_only c = 0) /\
    (f = "K"%char -> Card.figure_only c = 12) /\
    (s = "C"%char -> Card.suit_only c = 0) /\
    (s = "S"%char -> Card.suit_only c = 3).
Proof.
  intros Hf Hs. simpl in Hf, Hs.
  repeat (destruct Hf as [<- | Hf]; [ | ]); try contradiction;
    repeat (destruct Hs as [<- | Hs]; [ | ]); try contradiction;
    (eexists; split; [ reflexivity | ];
     split; [ reflexivity | ];
     cbv [Card.figure_only Card.suit_only Card.card]; simpl;
     repeat split; try lia; try reflexivity; intros H; try reflexivity;
     discriminate H).
Qed.

Lemma card_roundtrip_witness :
  exists c,
    Card.init 7 (token "T" "H") = Some c /\
    Card.str c = Some (token "T" "H") /\
    0 <= Card.figure_only c <= 12 /\
    0 <= Card.suit_only c <= 3 /\
    nth_error (PyStr.chars Card._FIG) (Z.to_nat (Card.figure_only c))
      = Some "T"%char /\
    nth_error (PyStr.chars Card._SUIT) (Z.to_nat (Card.suit_only c))
      = Some "H"%char /\
    ("T"%char = "A"%char -> Card.figure_only c = 0) /\
    ("T"%char = "K"%char -> Card.figure_only c = 12) /\
    ("H"%char = "C"%char -> Card.suit_only c = 0) /\
    ("H"%char = "S"%char -> Card.suit_only c = 3).
Proof.
  apply (card_roundtrip 7 "T" "H"); simpl;
    repeat first [ left; reflexivity | right ].
Defined.

(** ** Sorting *)

Lemma insert_desc_perm (x : Z) (l : list Z) :
  Permutation (insert_desc x l) (x :: l).
Proof.
  induction l as [|y l IH]; simpl.
  - apply Permutation_refl.
  - destruct (y <? x).
    + apply Permutation_refl.
    + eapply perm_trans; [ apply perm_skip, IH | apply perm_swap ].
Qed.

Lemma sorted_reverse_perm (l : list Z) : Permutation (sorted_reverse l) l.
Proof.
  induction l as [|x l IH]; simpl.
  - constructor.
  - eapply perm_trans; [ apply insert_desc_perm | now apply perm_skip ].
Qed.

Lemma sorted_reverse_length (l : list Z) :
  length (sorted_reverse l) = length l.
Proof. apply Permutation_length, sorted_reverse_perm. Qed.

Lemma insert_desc_descending (x : Z) (l : list Z) :
  descending l -> descending (insert_desc x l).
Proof.
  induction l as [|y l IH]; simpl; intros H.
  - split; [ constructor | exact I ].
  - destruct H as [Hy Hl]. destruct (y <? x) eqn:E.
    + apply Z.ltb_lt in E. simpl. repeat split; auto.
      constructor; [ lia | ].
      eapply Forall_impl; [ | exact Hy ]. simpl. intros; lia.
    + apply Z.ltb_ge in E. simpl. split; [ | auto ].
      eapply Permutation_Forall.
      * apply Permutation_sym, insert_desc_perm.
      * constructor; assumption.
Qed.

Lemma sorted_reverse_descending (l : list Z) : descending (sorted_reverse l).
Proof.
  induction l as [|x l IH]; simpl.
  - exact I.
  - now apply insert_desc_descending.
Qed.

Lemma descending_perm_eq (l l' : list Z) :
  descending l -> descending l' -> Permutation l l' -> l = l'.
Proof.
  revert l'. induction l as [|x l IH]; intros [|y l'] Hl Hl' P.
  - reflexivity.
  - now apply Permutation_nil in P.
  - now apply Permutation_sym, Permutation_nil in P.
  - destruct Hl as [Hx Hl], Hl' as [Hy Hl'].
    assert (x = y) as ->.
    { assert (In x (y :: l')) as I1
        by (eapply Permutation_in; [ exact P | now left ]).
      assert (In y (x :: l)) as I2
        by (eapply Permutation_in; [ apply Permutation_sym, P | now left ]).
      rewrite Forall_forall in Hx, Hy.
      destruct I1 as [-> | I1]; [ reflexivity | ].
      destruct I2 as [-> | I2]; [ reflexivity | ].
      apply Hy in I1. apply Hx in I2. lia. }
    f_equal. apply IH; auto. eapply Permutation_cons_inv, P.
Qed.

Lemma sorted_reverse_of_perm (l l' : list Z) :
  Permutation l l' -> sorted_reverse l = sorted_reverse l'.
Proof.
  intros P. apply descending_perm_eq; try apply sorted_reverse_descending.
  eapply perm_trans; [ apply sorted_reverse_perm | ].
  eapply perm_trans; [ exact P | apply Permutation_sym, sorted_reverse_perm ].
Qed.

(** The sorted figures of a five-card hand are five ranks in descending
    order. *)
Lemma figures_of_five (h : Hand.t) :
  length (Hand.cards h) = 5%nat ->
  exists r0 r1 r2 r3 r4,
    figures_of h = [r0; r1; r2; r3; r4] /\
    r4 <= r3 /\ r3 <= r2 /\ r2 <= r1 /\ r1 <= r0.
Proof.
  intros L. unfold figures_of.
  pose proof (sorted_reverse_descending (map Card.figure_only (Hand.cards h))) as D.
  pose proof (sorted_reverse_length (map Card.figure_only (Hand.cards h))) as E.
  rewrite length_map, L in E.
  destruct (sorted_reverse _) as [|r0 [|r1 [|r2 [|r3 [|r4 [|]]]]]];
    try discriminate E.
  exists r0, r1, r2, r3, r4. split; [ reflexivity | ].
  simpl in D. decompose [and] D.
  repeat match goal with H : Forall _ (_ :: _) |- _ => inversion_clear H end.
  lia.
Qed.

(** ** The evaluator *)

Lemma stops_of_five (r0 r1 r2 r3 r4 : Z) :
  Hand.stops_of [r0; r1; r2; r3; r4]
  = Some ((if r0 =? r1 + 1 then [] else [1%nat])
          ++ (if r1 =? r2 + 1 then [] else [2%nat])
          ++ (if r2 =? r3 + 1 then [] else [3%nat])
          ++ (if r3 =? r4 + 1 then [] else [4%nat])).
Proof.
  unfold Hand.stops_of. simpl.
  destruct (r0 =? r1 + 1), (r1 =? r2 + 1), (r2 =? r3 + 1), (r3 =? r4 + 1);
    reflexivity.
Qed.

Lemma is_straight_five (r0 r1 r2 r3 r4 : Z) :
  Hand.is_straight [r0; r1; r2; r3; r4] = Some (straight_rule r0 r1 r2 r3 r4).
Proof.
  unfold Hand.is_straight, straight_rule. rewrite stops_of_five.
  destruct (r0 =? r1 + 1), (r1 =? r2 + 1), (r2 =? r3 + 1), (r3 =? r4 + 1);
    try reflexivity.
  unfold Hand.special_case, por, pand. simpl.
  destruct (r0 =? 12), (r4 =? 0); reflexivity.
Qed.

(** [evaluate] on a hand whose sorted figures are known. *)
Lemma evaluate_five (h : Hand.t) (r0 r1 r2 r3 r4 : Z) :
  figures_of h = [r0; r1; r2; r3; r4] ->
  Hand.evaluate h
  = Some (classify (len_set (map Card.suit_only (Hand.cards h)))
                   r0 r1 r2 r3 r4 (len_set (figures_of h))).
Proof.
  intros E. unfold Hand.evaluate, classify. cbv zeta. fold (figures_of h).
  rewrite E, !is_straight_five.
  unfold por, pand, Hand.fig_eq, Hand.fig. simpl.
  generalize (straight_rule r0 r1 r2 r3 r4); intros st.
  repeat match goal with
         | |- context [if ?b then _ else _] => destruct b; simpl
         end;
    reflexivity.
Qed.

Lemma classify_in_RANK (suits : nat) (r0 r1 r2 r3 r4 : Z) (distinct : nat) :
  In (classify suits r0 r1 r2 r3 r4 distinct) Hand._RANK.
Proof.
  unfold classify.
  repeat match goal with
         | |- context [if ?b then _ else _] => destruct b
         end;
    vm_compute; tauto.
Qed.

(** C4: on a hand of exactly five cards [evaluate] returns, and what it
    returns is one of the nine rank names: the one the checks give in
    their order of precedence (flush or straight flush for one suit,
    four of a kind, full house, straight, three of a kind, then the
    number of distinct ranks), applied to the ranks of the hand sorted
    in descending order. *)
Theorem evaluate_precedence (h : Hand.t) :
  length (Hand.cards h) = 5%nat ->
  exists r0 r1 r2 r3 r4,
    Permutation [r0; r1; r2; r3; r4] (map Card.figure_only (Hand.cards h)) /\
    r4 <= r3 /\ r3 <= r2 /\ r2 <= r1 /\ r1 <= r0 /\
    let name :=
      classify (len_set (map Card.suit_only (Hand.cards h)))
               r0 r1 r2 r3 r4 (len_set [r0; r1; r2; r3; r4]) in
    Hand.evaluate h = Some name /\ In name Hand._RANK.
Proof.
  intros L. destruct (figures_of_five h L) as (r0 & r1 & r2 & r3 & r4 & E & Hd).
  exists r0, r1, r2, r3, r4.
  split. { rewrite <- E. apply sorted_reverse_perm. }
  repeat (split; [ lia | ]). cbv zeta.
  split; [ | apply classify_in_RANK ].
  rewrite <- E. now apply evaluate_five.
Qed.

(** ** The straight rule *)

Lemma special_disjunct_five (r0 r1 r2 r3 r4 : Z) :
  special_disjunct [r0; r1; r2; r3; r4] = Some true <->
  [r0; r1; r2; r3; r4] = broadway_figures.
Proof.
  unfold special_disjunct, broadway_figures. rewrite stops_of_five.
  unfold Hand.special_case, pand, Hand.fig. simpl. split.
  - destruct (r0 =? r1 + 1) eqn:E1, (r1 =? r2 + 1) eqn:E2,
             (r2 =? r3 + 1) eqn:E3, (r3 =? r4 + 1) eqn:E4;
      simpl; try discriminate.
    destruct (r0 =? 12) eqn:E5; try discriminate.
    destruct (r4 =? 0) eqn:E6; try discriminate.
    intros _. apply Z.eqb_eq in E1, E2, E3, E5, E6.
    repeat f_equal; lia.
  - intros E. injection E as -> -> -> -> ->. reflexivity.
Qed.

(** The wheel is not what the special disjunct recognises: its sorted
    figures are consecutive, and the disjunct is false on them, while it
    is true on T-J-Q-K-A. *)
Lemma special_disjunct_not_wheel :
  figures_of wheel_hand = wheel_figures /\
  Hand.stops_of (figures_of wheel_hand) = Some [] /\
  special_disjunct (figures_of wheel_hand) = Some false /\
  figures_of broadway_hand = broadway_figures /\
  special_disjunct (figures_of broadway_hand) = Some true.
Proof. repeat split; reflexivity. Qed.

(** C3, as the code has it: on a hand of five cards the special
    disjunct of the straight rule (the only break is before the last
    sorted figure, the first sorted figure is 12 and the last is 0)
    holds exactly when the figures are T, J, Q, K, A (9, 10, 11, 12 and
    0); the figures of the wheel A-2-3-4-5 are 4, 3, 2, 1, 0, which have
    no break at all. *)
Theorem special_disjunct_broadway (h : Hand.t) :
  length (Hand.cards h) = 5%nat ->
  (special_disjunct (figures_of h) = Some true <->
   Permutation (map Card.figure_only (Hand.cards h)) broadway_figures) /\
  (Permutation (map Card.figure_only (Hand.cards h)) wheel_figures ->
   Hand.stops_of (figures_of h) = Some [] /\
   special_disjunct (figures_of h) = Some false /\
   Hand.is_straight (figures_of h) = Some true).
Proof.
  intros L. split; [ split | ].
  - destruct (figures_of_five h L) as (r0 & r1 & r2 & r3 & r4 & E & _).
    rewrite E, special_disjunct_five. intros <-. rewrite <- E.
    apply Permutation_sym, sorted_reverse_perm.
  - intros P. unfold figures_of.
    rewrite (sorted_reverse_of_perm _ _ P). reflexivity.
  - intros P. unfold figures_of.
    rewrite (sorted_reverse_of_perm _ _ P). repeat split; reflexivity.
Qed.

Lemma special_disjunct_broadway_witness :
  (special_disjunct (figures_of broadway_hand) = Some true <->
   Permutation (map Card.figure_only (Hand.cards broadway_hand))
               broadway_figures) /\
  (Permutation (map Card.figure_only (Hand.cards broadway_hand)) wheel_figures ->
   Hand.stops_of (figures_of broadway_hand) = Some [] /\
   special_disjunct (figures_of broadway_hand) = Some false /\
   Hand.is_straight (figures_of broadway_hand) = Some true).
Proof.
  apply (special_disjunct_broadway broadway_hand). reflexivity.
Defined.

Lemma evaluate_precedence_witness :
  exists r0 r1 r2 r3 r4,
    Permutation [r0; r1; r2; r3; r4]
                (map Card.figure_only (Hand.cards wheel_hand)) /\
    r4 <= r3 /\ r3 <= r2 /\ r2 <= r1 /\ r1 <= r0 /\
    let name :=
      classify (len_set (map Card.suit_only (Hand.cards wheel_hand)))
               r0 r1 r2 r3 r4 (len_set [r0; r1; r2; r3; r4]) in
    Hand.evaluate wheel_hand = Some name /\ In name Hand._RANK.
Proof.
  apply (evaluate_precedence wheel_hand). reflexivity.
Defined.

(** ** The cached rank *)

Lemma evaluate_cards (h : Hand.t) :
  Hand.evaluate h = Hand.evaluate (Hand.init (Hand.cards h)).
Proof. reflexivity. Qed.

Lemma evaluate_total (h : Hand.t) :
  length (Hand.cards h) = 5%nat ->
  exists r i, Hand.evaluate h = Some r /\ list_index Hand._RANK r = Some i
              /\ (i < 9)%nat.
Proof.
  intros L. destruct (figures_of_five h L) as (r0 & r1 & r2 & r3 & r4 & E & _).
  rewrite (evaluate_five h _ _ _ _ _ E).
  eexists.
  assert (forall r, In r Hand._RANK ->
            exists i, list_index Hand._RANK r = Some i /\ (i < 9)%nat) as H.
  { intros r Hr. vm_compute in Hr.
    repeat (destruct Hr as [<- | Hr];
            [ eexists; split; [ reflexivity | lia ] | ]).
    contradiction. }
  destruct (H _ (classify_in_RANK
                   (len_set (map Card.suit_only (Hand.cards h)))
                   r0 r1 r2 r3 r4 (len_set (figures_of h)))) as (i & Hi & Hlt).
  exists i. auto.
Qed.

Lemma fill_rank_coherent (h : Hand.t) :
  coherent h ->
  exists r, Hand.evaluate h = Some r /\
            Hand.fill_rank h = Some (Hand.mk (Hand.cards h) (Some r)).
Proof.
  intros [L C]. destruct (evaluate_total h L) as (r & i & E & _).
  exists r. split; [ exact E | ].
  unfold Hand.fill_rank. destruct h as [cs [rk|]]; cbn [Hand.rank Hand.cards] in *.
  - destruct C as [C | C]; [ discriminate | ].
    rewrite E in C. injection C as <-.
    destruct (Hand.not_rank (Some r)); [ | reflexivity ].
    rewrite E. reflexivity.
  - cbn [Hand.not_rank]. rewrite E. reflexivity.
Qed.

Lemma str_coherent (h : Hand.t) :
  coherent h ->
  exists r, Hand.evaluate h = Some r /\
            Hand.str h = Some (r, Hand.mk (Hand.cards h) (Some r)).
Proof.
  intros C. destruct (fill_rank_coherent h C) as (r & E & F).
  exists r. split; [ exact E | ]. unfold Hand.str. rewrite F. reflexivity.
Qed.

Lemma int_index (h : Hand.t) (r : string) (i : nat) :
  coherent h -> Hand.evaluate h = Some r ->
  list_index Hand._RANK r = Some i ->
  Hand.int h = Some (i, Hand.mk (Hand.cards h) (Some r)).
Proof.
  intros C E I. destruct (fill_rank_coherent h C) as (r' & E' & F).
  rewrite E in E'. injection E' as <-.
  unfold Hand.int. rewrite F. cbn [Hand.rank]. rewrite I. reflexivity.
Qed.

Lemma rank_of_five (cs : list Card.t) :
  length cs = 5%nat -> exists i, rank_of cs = Some i /\ (i < 9)%nat.
Proof.
  intros L. destruct (evaluate_total (Hand.init cs) L) as (r & i & E & I & Hlt).
  exists i. split; [ | exact Hlt ].
  unfold rank_of. rewrite (int_index (Hand.init cs) r i); auto.
  split; [ exact L | now left ].
Qed.

Lemma rank_nat_five (cs : list Card.t) :
  length cs = 5%nat -> rank_of cs = Some (rank_nat cs).
Proof.
  intros L. unfold rank_nat. destruct (rank_of_five cs L) as (i & -> & _).
  reflexivity.
Qed.

(** [int] on a coherent hand: the rank of its cards, and the hand with
    its cache filled. *)
Lemma int_coherent (h : Hand.t) :
  coherent h ->
  exists h', Hand.int h = Some (rank_nat (Hand.cards h), h') /\
             Hand.cards h' = Hand.cards h /\ coherent h'.
Proof.
  intros C. destruct C as [L C'].
  destruct (evaluate_total h L) as (r & i & E & I & _).
  pose proof (rank_nat_five _ L) as R.
  unfold rank_of in R.
  rewrite (int_index (Hand.init (Hand.cards h)) r i) in R;
    [ | split; [ exact L | now left ] | exact E | exact I ].
  injection R as <-.
  eexists. split; [ apply (int_index h r i (conj L C') E I) | ].
  cbn [Hand.cards Hand.rank]. split; [ reflexivity | ].
  split; [ exact L | right; exact E ].
Qed.

Lemma gt_coherent (a b : Hand.t) :
  coherent a -> coherent b ->
  exists a' b',
    Hand.gt a b
    = Some ((rank_nat (Hand.cards b) <? rank_nat (Hand.cards a))%nat, a', b') /\
    Hand.cards a' = Hand.cards a /\ coherent a' /\
    Hand.cards b' = Hand.cards b /\ coherent b'.
Proof.
  intros Ca Cb.
  destruct (int_coherent a Ca) as (a' & Ia & Ea & Ca').
  destruct (int_coherent b Cb) as (b' & Ib & Eb & Cb').
  exists a', b'. unfold Hand.gt. rewrite Ia, Ib. auto.
Qed.

Lemma keep_best_coherent (hand best : Hand.t) :
  coherent hand -> coherent best ->
  exists best',
    keep_best hand best = Some best' /\ coherent best' /\
    Hand.cards best' = pick (Hand.cards best) (Hand.cards hand).
Proof.
  intros Ch Cb.
  destruct (gt_coherent hand best Ch Cb) as (h' & b' & G & Eh & Ch' & Eb & Cb').
  unfold keep_best, pick. rewrite G.
  destruct (rank_nat (Hand.cards best) <? rank_nat (Hand.cards hand))%nat;
    eexists; split; try reflexivity; auto.
Qed.

(** ** The generator *)

Lemma discard_loop_step (fuel n : nat) (s : list nat) (w : nat) :
  discard_loop (S fuel) n s w
  = if (w <? 5)%nat then
      rest <- discard_loop fuel n (s ++ [w]) (w + 1)%nat ;;
      Some (if (length (s ++ [w]) =? n)%nat then (s ++ [w]) :: rest else rest)
    else
      match s with
      | [] => Some []
      | _ => discard_loop fuel n (removelast s) (last s O + 1)%nat
      end.
Proof. reflexivity. Qed.

(** More fuel does not change what the generator yields. *)
Lemma discard_loop_more_fuel (fuel n : nat) (s : list nat) (w : nat)
  (ys : list (list nat)) :
  discard_loop fuel n s w = Some ys ->
  discard_loop (S fuel) n s w = Some ys.
Proof.
  revert s w ys. induction fuel as [|fuel IH]; intros s w ys H.
  - discriminate H.
  - rewrite discard_loop_step in H. rewrite discard_loop_step.
    destruct (w <? 5)%nat.
    + destruct (discard_loop fuel n (s ++ [w]) (w + 1)) as [rest|] eqn:E;
        [ | discriminate H ].
      rewrite (IH _ _ _ E). exact H.
    + destruct s as [|x s']; [ exact H | ]. apply IH. exact H.
Qed.

(** The generator stops, and yields the lists of [n] positions in
    lexicographic order. *)
Lemma discard_values :
  map discard [1; 2; 3; 4; 5]%nat
  = map Some
      [ [[0]; [1]; [2]; [3]; [4]];
        [[0; 1]; [0; 2]; [0; 3]; [0; 4]; [1; 2]; [1; 3]; [1; 4]; [2; 3];
         [2; 4]; [3; 4]];
        [[0; 1; 2]; [0; 1; 3]; [0; 1; 4]; [0; 2; 3]; [0; 2; 4]; [0; 3; 4];
         [1; 2; 3]; [1; 2; 4]; [1; 3; 4]; [2; 3; 4]];
        [[0; 1; 2; 3]; [0; 1; 2; 4]; [0; 1; 3; 4]; [0; 2; 3; 4];
         [1; 2; 3; 4]];
        [[0; 1; 2; 3; 4]] ]%nat.
Proof. vm_compute. reflexivity. Qed.

Lemma enumerated_value :
  enumerated
  = Some
      [ []; [0]; [1]; [2]; [3]; [4];
        [0; 1]; [0; 2]; [0; 3]; [0; 4]; [1; 2]; [1; 3]; [1; 4]; [2; 3];
        [2; 4]; [3; 4];
        [0; 1; 2]; [0; 1; 3]; [0; 1; 4]; [0; 2; 3]; [0; 2; 4]; [0; 3; 4];
        [1; 2; 3]; [1; 2; 4]; [1; 3; 4]; [2; 3; 4];
        [0; 1; 2; 3]; [0; 1; 2; 4]; [0; 1; 3; 4]; [0; 2; 3; 4];
        [1; 2; 3; 4];
        [0; 1; 2; 3; 4] ]%nat.
Proof. vm_compute. reflexivity. Qed.

(** What is yielded for [n] are the lists of length [n] among those the
    loop builds. *)
Lemma discard_loop_trace (fuel n : nat) (s : list nat) (w : nat) :
  discard_loop fuel n s w
  = ys <- discard_trace fuel s w ;;
    Some (filter (fun v => (length v =? n)%nat) ys).
Proof.
  revert s w. induction fuel as [|fuel IH]; intros s w.
  - reflexivity.
  - rewrite discard_loop_step. cbn [discard_trace].
    destruct (w <? 5)%nat.
    + rewrite IH. destruct (discard_trace fuel (s ++ [w]) (w + 1)); reflexivity.
    + destruct s; [ reflexivity | apply IH ].
Qed.

(** The generator stops for every [n]: the loop does not depend on [n],
    it builds the 31 non-empty lists of increasing positions and yields
    those of length [n]. *)
Lemma discard_total (n : nat) :
  exists built,
    discard_trace discard_fuel [] O = Some built /\
    length built = 31%nat /\
    discard n = Some (filter (fun v => (length v =? n)%nat) built).
Proof.
  assert (exists built, discard_trace discard_fuel [] O = Some built /\
                        length built = 31%nat /\
                        filter (fun v => (length v =? 0)%nat) built = [])
    as (built & T & L & Z).
  { eexists. split; [ vm_compute; reflexivity | split; reflexivity ]. }
  exists built. split; [ exact T | ]. split; [ exact L | ].
  unfold discard. destruct n as [|n].
  - rewrite Z. reflexivity.
  - change (0 <? S n)%nat with true. cbv iota.
    rewrite discard_loop_trace, T. reflexivity.
Qed.

(** Splits a list written out in full around its element [x]. *)
Ltac split_around x l :=
  lazymatch l with
  | x :: ?t => constr:((@nil (list nat), t))
  | ?y :: ?t =>
      let r := split_around x t in
      lazymatch r with
      | (?a, ?b) => constr:((y :: a, b))
      end
  end.

(** Proves that two lists written out in full are permutations. *)
Ltac perm_explicit :=
  repeat lazymatch goal with
         | |- Permutation [] [] => apply perm_nil
         | |- Permutation (?x :: ?l) ?l' =>
             let r := split_around x l' in
             lazymatch r with
             | (?a, ?b) =>
                 change l' with (a ++ x :: b);
                 apply Permutation_cons_app; cbn [app]
             end
         end.

(** Every subset of the positions is enumerated once. *)
Lemma enumerated_subsets :
  exists vs, enumerated = Some vs /\ Permutation vs position_subsets /\
             NoDup vs /\ length vs = 32%nat.
Proof.
  eexists. split; [ apply enumerated_value | ].
  assert (Permutation
            [ []; [0]; [1]; [2]; [3]; [4];
              [0; 1]; [0; 2]; [0; 3]; [0; 4]; [1; 2]; [1; 3]; [1; 4]; [2; 3];
              [2; 4]; [3; 4];
              [0; 1; 2]; [0; 1; 3]; [0; 1; 4]; [0; 2; 3]; [0; 2; 4]; [0; 3; 4];
              [1; 2; 3]; [1; 2; 4]; [1; 3; 4]; [2; 3; 4];
              [0; 1; 2; 3]; [0; 1; 2; 4]; [0; 1; 3; 4]; [0; 2; 3; 4];
              [1; 2; 3; 4];
              [0; 1; 2; 3; 4] ]%nat position_subsets) as P.
  { unfold position_subsets. cbn [sublists map app]. perm_explicit. }
  split; [ exact P | ]. split; [ | reflexivity ].
  eapply Permutation_NoDup; [ apply Permutation_sym, P | ].
  unfold position_subsets. cbn [sublists map app].
  repeat (apply NoDup_cons;
          [ cbn [In]; intros H; repeat (destruct H as [H | H]; [ discriminate H | ]);
            exact H | ]).
  apply NoDup_nil.
Qed.

(** ** The subsets of the positions *)

Lemma sublists_seq (n lo : nat) (v : list nat) :
  In v (sublists (seq lo n)) <-> increasing_in lo (lo + n) v.
Proof.
  revert lo v. induction n as [|n IH]; intros lo v.
  - simpl. split.
    + intros [<- | []]. exact I.
    + destruct v as [|x v]; [ now left | ]. simpl. lia.
  - cbn [seq sublists]. rewrite in_app_iff, in_map_iff. split.
    + intros [(v' & <- & Hv') | Hv].
      * apply IH in Hv'. simpl. repeat split; try lia.
        now replace (lo + S n)%nat with (S lo + n)%nat by lia.
      * apply IH in Hv. destruct v as [|x v]; [ exact I | ].
        simpl in Hv |- *. replace (lo + S n)%nat with (S (lo + n)) by lia.
        repeat split; try lia. tauto.
    + destruct v as [|x v].
      * intros _. right. apply IH. exact I.
      * simpl. intros (H1 & H2 & H3).
        replace (lo + S n)%nat with (S lo + n)%nat in H3 by lia.
        destruct (Nat.eq_dec x lo) as [-> | Hne].
        -- left. exists v. split; [ reflexivity | ]. now apply IH.
        -- right. apply IH. simpl. repeat split; try lia. exact H3.
Qed.

(** The subsets of the positions are the strictly increasing lists of
    positions below 5. *)
Lemma position_subsets_increasing (v : list nat) :
  In v position_subsets <-> increasing_in 0 5 v.
Proof. apply (sublists_seq 5 0 v). Qed.

(** Discarding the positions 1 and 3 puts the first two deck cards
    there. *)
Example substitute_1_3 (h0 h1 h2 h3 h4 d0 d1 d2 d3 d4 : Card.t) :
  substitute [h0; h1; h2; h3; h4] [d0; d1; d2; d3; d4] [1; 3]%nat
  = [h0; d0; h2; d1; h4].
Proof. reflexivity. Qed.

(** ** The search *)

Lemma substitute_from_length (i : nat) (hand deck : list Card.t)
  (chosen : list nat) :
  length (substitute_from i hand deck chosen) = length hand.
Proof.
  revert i deck. induction hand as [|c hand IH]; intros i deck; simpl.
  - reflexivity.
  - destruct (existsb (Nat.eqb i) chosen); [ destruct deck | ];
      simpl; now rewrite IH.
Qed.

Lemma ten_cards (cards : list Card.t) :
  length cards = 10%nat ->
  exists c0 c1 c2 c3 c4 d0 d1 d2 d3 d4,
    cards = [c0; c1; c2; c3; c4; d0; d1; d2; d3; d4].
Proof.
  intros L.
  do 10 (destruct cards as [|? cards]; [ discriminate L | ]).
  destruct cards; [ | discriminate L ].
  repeat eexists.
Qed.

(** The calls of [replace] for an enumerated list of positions build
    the hand with these positions substituted. *)
Lemma replace_loop_substitute (cards : list Card.t) (vs : list (list nat))
  (v : list nat) :
  length cards = 10%nat ->
  enumerated = Some vs -> In v vs ->
  replace_loop (Hand.init (firstn 5 cards)) cards O v
  = Some (Hand.init (substitute (firstn 5 cards) (skipn 5 cards) v)).
Proof.
  intros L E I.
  destruct (ten_cards cards L)
    as (c0 & c1 & c2 & c3 & c4 & d0 & d1 & d2 & d3 & d4 & ->).
  rewrite enumerated_value in E. injection E as <-.
  cbn [In] in I.
  repeat (destruct I as [<- | I]; [ reflexivity | ]).
  contradiction.
Qed.

Lemma for_variations_fold (five cards deck : list Card.t) (best : Hand.t)
  (vs : list (list nat)) :
  length five = 5%nat -> coherent best ->
  (forall v, In v vs ->
     replace_loop (Hand.init five) cards O v
     = Some (Hand.init (substitute five deck v))) ->
  exists best',
    for_variations five cards best vs = Some best' /\ coherent best' /\
    Hand.cards best'
    = fold_left pick (map (substitute five deck) vs) (Hand.cards best).
Proof.
  intros L. revert best. induction vs as [|v vs IH]; intros best C H.
  - exists best. auto.
  - cbn [for_variations map fold_left]. unfold try_variation.
    rewrite (H v (or_introl eq_refl)).
    destruct (keep_best_coherent (Hand.init (substitute five deck v)) best)
      as (b1 & K & C1 & E1); [ | exact C | ].
    { split; [ | now left ].
      cbn [Hand.cards Hand.init]. unfold substitute.
      now rewrite substitute_from_length. }
    rewrite K. cbn [Hand.cards Hand.init] in E1. rewrite <- E1.
    apply IH; [ exact C1 | ]. intros v' I. apply H. now right.
Qed.

Lemma for_variations_app (five cards : list Card.t) (best : Hand.t)
  (vs ws : list (list nat)) :
  for_variations five cards best (vs ++ ws)
  = best' <- for_variations five cards best vs ;;
    for_variations five cards best' ws.
Proof.
  revert best. induction vs as [|v vs IH]; intros best; simpl.
  - reflexivity.
  - destruct (try_variation five cards best v); [ apply IH | reflexivity ].
Qed.

Lemma for_d_flat (five cards : list Card.t) (ds : list nat)
  (vss : list (list (list nat))) (best : Hand.t) :
  map discard ds = map Some vss ->
  for_d five cards best ds = for_variations five cards best (concat vss).
Proof.
  revert vss best. induction ds as [|d ds IH]; intros [|vs vss] best E;
    try discriminate E.
  - reflexivity.
  - injection E as E1 E2. cbn [for_d concat].
    rewrite E1, for_variations_app.
    destruct (for_variations five cards best vs); [ | reflexivity ].
    now apply IH.
Qed.

(** The two loops of [best_combinations] as one loop over what the
    generator yields for 1 to 5 cards. *)
Lemma best_combinations_flat (cards : list Card.t) (vs : list (list nat)) :
  enumerated = Some ([] :: vs) ->
  best_combinations cards
  = for_variations (firstn 5 cards) cards (Hand.init (firstn 5 cards)) vs.
Proof.
  intros E. rewrite enumerated_value in E. injection E as <-.
  unfold best_combinations. cbv zeta.
  rewrite (for_d_flat _ _ _ _ _ discard_values). reflexivity.
Qed.

Lemma pick_cases (b c : list Card.t) :
  ((rank_nat b < rank_nat c)%nat /\ pick b c = c) \/
  ((rank_nat c <= rank_nat b)%nat /\ pick b c = b).
Proof.
  unfold pick. destruct (rank_nat b <? rank_nat c)%nat eqn:E.
  - left. apply Nat.ltb_lt in E. auto.
  - right. apply Nat.ltb_ge in E. auto.
Qed.

Lemma fold_pick_in (cs : list (list Card.t)) (b : list Card.t) :
  In (fold_left pick cs b) (b :: cs).
Proof.
  revert b. induction cs as [|c cs IH]; intros b; cbn [fold_left].
  - now left.
  - destruct (IH (pick b c)) as [H | H]; [ | right; right; exact H ].
    destruct (pick_cases b c) as [[_ P] | [_ P]]; rewrite P in H at 1.
    + right. left. exact H.
    + left. exact H.
Qed.

Lemma fold_pick_ge (cs : list (list Card.t)) (b : list Card.t) :
  (rank_nat b <= rank_nat (fold_left pick cs b))%nat.
Proof.
  revert b. induction cs as [|c cs IH]; intros b; cbn [fold_left].
  - lia.
  - specialize (IH (pick b c)).
    destruct (pick_cases b c) as [[Hlt P] | [_ P]]; rewrite P in IH at 1; lia.
Qed.

Lemma fold_pick_max (cs : list (list Card.t)) (b c : list Card.t) :
  In c (b :: cs) -> (rank_nat c <= rank_nat (fold_left pick cs b))%nat.
Proof.
  revert b. induction cs as [|c' cs IH]; intros b [<- | I].
  - cbn [fold_left]. lia.
  - destruct I.
  - apply fold_pick_ge.
  - cbn [fold_left]. destruct I as [-> | I].
    + pose proof (fold_pick_ge cs (pick b c)) as G.
      destruct (pick_cases b c) as [[_ P] | [Hle P]]; rewrite P in G at 1; lia.
    + apply IH. now right.
Qed.

(** What [best_combinations] returns on ten cards: the first hand of
    the highest rank among those built for the enumerated lists of
    positions. *)
Lemma best_combinations_fold (cards : list Card.t) :
  length cards = 10%nat ->
  exists best vs,
    enumerated = Some ([] :: vs) /\
    best_combinations cards = Some best /\ coherent best /\
    Hand.cards best
    = fold_left pick
        (map (substitute (firstn 5 cards) (skipn 5 cards)) vs)
        (firstn 5 cards).
Proof.
  intros L.
  assert (length (firstn 5 cards) = 5%nat) as L5
    by (rewrite length_firstn, L; reflexivity).
  pose proof enumerated_value as EV.
  destruct enumerated as [[|v0 vs]|] eqn:E; try discriminate EV.
  assert (v0 = []) as -> by (injection EV as -> _; reflexivity).
  destruct (for_variations_fold (firstn 5 cards) cards (skipn 5 cards)
              (Hand.init (firstn 5 cards)) vs L5) as (best & F & C & Eq).
  - split; [ exact L5 | now left ].
  - intros v I. apply (replace_loop_substitute cards _ v L E). now right.
  - exists best, vs. rewrite (best_combinations_flat cards vs E). auto.
Qed.

Lemma substitute_from_nil (i : nat) (hand deck : list Card.t) :
  substitute_from i hand deck [] = hand.
Proof.
  revert i. induction hand as [|c hand IH]; intros i; simpl.
  - reflexivity.
  - now rewrite IH.
Qed.

Lemma candidates_enumerated (cards : list Card.t) (vs : list (list nat)) :
  enumerated = Some ([] :: vs) ->
  Permutation
    (firstn 5 cards :: map (substitute (firstn 5 cards) (skipn 5 cards)) vs)
    (candidates cards).
Proof.
  intros E. destruct enumerated_subsets as (vs0 & E0 & P & _).
  rewrite E in E0. injection E0 as <-.
  unfold candidates.
  rewrite <- (substitute_from_nil O (firstn 5 cards) (skipn 5 cards)) at 1.
  apply (Permutation_map (substitute (firstn 5 cards) (skipn 5 cards)) P).
Qed.

Lemma candidates_five (cards c : list Card.t) :
  length cards = 10%nat -> In c (candidates cards) -> length c = 5%nat.
Proof.
  intros L I. unfold candidates in I. apply in_map_iff in I.
  destruct I as (v & <- & _). unfold substitute.
  rewrite substitute_from_length, length_firstn, L. reflexivity.
Qed.

(** C5: on a record of ten cards the search returns a hand, one of the
    32 candidates, and the rank of its cards is the greatest of the
    ranks of the 32 candidates: it is the rank of a candidate and no
    candidate has a higher one.  The rank is the one [evaluate] gives
    for the cards returned, and it is also what [int] reads on the
    object returned, whose cached rank is never a stale one.  The
    candidates are the hands obtained from the subsets of the positions
    0..4: the chosen positions, in increasing order, take the deck
    cards from the front of the deck and the other positions keep their
    cards.  The search goes through every subset exactly once. *)
Theorem best_combinations_maximum (cards : list Card.t) :
  length cards = 10%nat ->
  (exists vs, enumerated = Some vs /\ Permutation vs position_subsets /\
              NoDup vs /\ length vs = 32%nat) /\
  length (candidates cards) = 32%nat /\
  exists best i,
    best_combinations cards = Some best /\
    In (Hand.cards best) (candidates cards) /\
    rank_of (Hand.cards best) = Some i /\
    coherent best /\
    (exists best', Hand.int best = Some (i, best')) /\
    (exists c, In c (candidates cards) /\ rank_of c = Some i) /\
    forall c, In c (candidates cards) ->
              exists j, rank_of c = Some j /\ (j <= i)%nat.
Proof.
  intros L. split; [ exact enumerated_subsets | ]. split; [ reflexivity | ].
  destruct (best_combinations_fold cards L) as (best & vs & E & B & C & F).
  pose proof (candidates_enumerated cards vs E) as P.
  assert (In (Hand.cards best) (candidates cards)) as I.
  { eapply Permutation_in; [ exact P | ]. rewrite F. apply fold_pick_in. }
  assert (rank_of (Hand.cards best) = Some (rank_nat (Hand.cards best))) as R
    by (apply rank_nat_five, C).
  exists best, (rank_nat (Hand.cards best)).
  split; [ exact B | ]. split; [ exact I | ]. split; [ exact R | ].
  split; [ exact C | ]. split; [ | split ].
  - destruct (int_coherent best C) as (b' & Hb & _). now exists b'.
  - exists (Hand.cards best). split; [ exact I | exact R ].
  - intros c Ic. exists (rank_nat c). split.
    + apply rank_nat_five. now apply (candidates_five cards).
    + rewrite F. apply fold_pick_max.
      eapply Permutation_in; [ apply Permutation_sym, P | exact Ic ].
Qed.

Lemma best_combinations_maximum_witness :
  (exists vs, enumerated = Some vs /\ Permutation vs position_subsets /\
              NoDup vs /\ length vs = 32%nat) /\
  length (candidates sample_cards) = 32%nat /\
  exists best i,
    best_combinations sample_cards = Some best /\
    In (Hand.cards best) (candidates sample_cards) /\
    rank_of (Hand.cards best) = Some i /\
    coherent best /\
    (exists best', Hand.int best = Some (i, best')) /\
    (exists c, In c (candidates sample_cards) /\ rank_of c = Some i) /\
    forall c, In c (candidates sample_cards) ->
              exists j, rank_of c = Some j /\ (j <= i)%nat.
Proof.
  apply (best_combinations_maximum sample_cards). reflexivity.
Defined.



(** ** The order of the ranks *)

Lemma list_index_nth (l : list string) (r : string) (i : nat) :
  list_index l r = Some i -> nth_error l i = Some r.
Proof.
  revert i. induction l as [|y l IH]; intros i H; simpl in H.
  - discriminate H.
  - destruct (String.eqb y r) eqn:E.
    + injection H as <-. apply String.eqb_eq in E. now subst.
    + destruct (list_index l r) as [k|]; [ | discriminate H ].
      injection H as <-. simpl. now apply IH.
Qed.

(** C7: the comparison of two hands compares the positions of their
    categories in the sequence highest-card, one-pair, two-pairs,
    three-of-a-kind, straight, flush, full-house, four-of-a-kind,
    straight-flush (nine different names, so the positions order them
    totally), and the candidate takes the place of the best hand only
    when its position is strictly greater. *)
Theorem rank_comparison (hand best : Hand.t) :
  coherent hand -> coherent best ->
  Hand._RANK = rank_names /\ NoDup rank_names /\
  exists ra rb i j hand' best',
    Hand.evaluate hand = Some ra /\ Hand.evaluate best = Some rb /\
    nth_error rank_names i = Some ra /\ nth_error rank_names j = Some rb /\
    Hand.int hand = Some (i, hand') /\ Hand.int best = Some (j, best') /\
    Hand.gt hand best = Some ((j <? i)%nat, hand', best') /\
    keep_best hand best = Some (if (j <? i)%nat then hand' else best') /\
    Hand.cards hand' = Hand.cards hand /\ Hand.cards best' = Hand.cards best.
Proof.
  intros Ch Cb. split; [ reflexivity | ]. split.
  { unfold rank_names.
    repeat (apply NoDup_cons;
            [ cbn [In]; intros H;
              repeat (destruct H as [H | H]; [ discriminate H | ]); exact H | ]).
    apply NoDup_nil. }
  destruct (str_coherent hand Ch) as (ra & Ea & Sa).
  destruct (str_coherent best Cb) as (rb & Eb & Sb).
  destruct (evaluate_total hand (proj1 Ch)) as (ra' & i & Ea' & Ia & _).
  destruct (evaluate_total best (proj1 Cb)) as (rb' & j & Eb' & Ib & _).
  rewrite Ea in Ea'. injection Ea' as <-.
  rewrite Eb in Eb'. injection Eb' as <-.
  pose proof (int_index hand ra i Ch Ea Ia) as Ha.
  pose proof (int_index best rb j Cb Eb Ib) as Hb.
  exists ra, rb, i, j. eexists. eexists.
  split; [ exact Ea | ]. split; [ exact Eb | ].
  split; [ apply (list_index_nth Hand._RANK), Ia | ].
  split; [ apply (list_index_nth Hand._RANK), Ib | ].
  split; [ exact Ha | ]. split; [ exact Hb | ].
  unfold keep_best, Hand.gt. rewrite Ha, Hb.
  repeat split.
Qed.

Lemma rank_comparison_witness :
  Hand._RANK = rank_names /\ NoDup rank_names /\
  exists ra rb i j hand' best',
    Hand.evaluate sample_deck_hand = Some ra /\
    Hand.evaluate sample_hand = Some rb /\
    nth_error rank_names i = Some ra /\ nth_error rank_names j = Some rb /\
    Hand.int sample_deck_hand = Some (i, hand') /\
    Hand.int sample_hand = Some (j, best') /\
    Hand.gt sample_deck_hand sample_hand = Some ((j <? i)%nat, hand', best') /\
    keep_best sample_deck_hand sample_hand
    = Some (if (j <? i)%nat then hand' else best') /\
    Hand.cards hand' = Hand.cards sample_deck_hand /\
    Hand.cards best' = Hand.cards sample_hand.
Proof.
  apply (rank_comparison sample_deck_hand sample_hand);
    (split; [ reflexivity | left; reflexivity ]).
Defined.

(** ** Lines *)

Lemma init_oid (o : nat) (tok : string) (c : Card.t) :
  Card.init o tok = Some c -> Card.oid c = o.
Proof.
  unfold Card.init. intros H.
  destruct (PyStr.index tok 0); [ | discriminate H ].
  destruct (dict_get Card._CARD _); [ | discriminate H ].
  destruct (PyStr.index tok 1); [ | discriminate H ].
  destruct (dict_get Card._CARD _); [ | discriminate H ].
  injection H as <-. reflexivity.
Qed.

Lemma map_Card_oid (o : nat) (tokens : list string) (cs : list Card.t) :
  map_Card o tokens = Some cs ->
  map Card.oid cs = seq o (length tokens).
Proof.
  revert o cs. induction tokens as [|tok tokens IH]; intros o cs H; simpl in H.
  - injection H as <-. reflexivity.
  - destruct (Card.init o tok) as [c|] eqn:Ec; [ | discriminate H ].
    destruct (map_Card (S o) tokens) as [cs'|] eqn:Ecs; [ | discriminate H ].
    injection H as <-. simpl.
    now rewrite (init_oid _ _ _ Ec), (IH _ _ Ecs).
Qed.

(** The cards of a line are different objects. *)
Lemma convert_oid (line : string) :
  map Card.oid (convert line) = seq O (length (convert line)).
Proof.
  unfold convert.
  destruct (map_Card O (PyStr.split (PyStr.upper line))) as [cs|] eqn:E.
  - pose proof (map_Card_oid _ _ _ E) as H.
    rewrite H. f_equal.
    apply (f_equal (@length nat)) in H.
    now rewrite length_map, length_seq in H.
  - reflexivity.
Qed.

(** On different objects [len(set(cards))] is the number of cards,
    whatever their values. *)
Lemma len_set_cards_convert (line : string) :
  len_set_cards (convert line) = length (convert line).
Proof.
  unfold len_set_cards. rewrite convert_oid.
  rewrite nodup_fixed_point by apply seq_NoDup.
  apply length_seq.
Qed.

Lemma validate_convert (line : string) :
  validate (convert line)
  = if (length (convert line) =? 10)%nat then PyVal (convert line) else PyFalse.
Proof. unfold validate. now rewrite len_set_cards_convert. Qed.

(** [process] never raises, and what is printed for a line is
    [Invalid line] or the name of a rank. *)
Lemma process_total (line : string) :
  exists r out,
    process line = Some r /\ print_or_invalid r = Some out /\
    (out = "Invalid line" \/ In out rank_names).
Proof.
  unfold process. rewrite validate_convert.
  destruct (length (convert line) =? 10)%nat eqn:E.
  - apply Nat.eqb_eq in E.
    destruct (best_combinations_fold _ E) as (best & vs & _ & B & C & _).
    destruct (convert line) as [|c cs] eqn:Ec; [ discriminate E | ].
    rewrite B. destruct (str_coherent best C) as (r & Ev & S).
    exists (PHand best), r. split; [ reflexivity | ].
    cbn [print_or_invalid]. rewrite S. split; [ reflexivity | ].
    right. destruct (figures_of_five best (proj1 C))
      as (r0 & r1 & r2 & r3 & r4 & F & _).
    rewrite (evaluate_five best _ _ _ _ _ F) in Ev. injection Ev as <-.
    apply classify_in_RANK.
  - exists PFalse, "Invalid line". auto.
Qed.

Lemma read_input_total (fd : list string) :
  exists outs,
    read_input fd = Some outs /\
    Forall (fun out => out = "Invalid line" \/ In out rank_names) outs.
Proof.
  induction fd as [|line fd (outs & R & F)]; simpl.
  - exists []. auto.
  - destruct line as [|c line]; [ exists []; auto | ].
    destruct (process_total (PyStr.strip (String c line)))
      as (r & out & P & Q & O).
    rewrite P, Q, R. exists (out :: outs). auto.
Qed.

(** C9: a line of more than ten card tokens that all parse, pairwise
    different, is not validated: [process] returns [False] and the line
    printed is [Invalid line]. *)
Theorem more_than_ten_invalid (line : string) (cs : list Card.t) :
  line <> "" ->
  map_Card O (PyStr.split (PyStr.upper (PyStr.strip line))) = Some cs ->
  (10 < length cs)%nat ->
  NoDup (map Card.card cs) ->
  validate cs = PyFalse /\
  process (PyStr.strip line) = Some PFalse /\
  read_input [line] = Some ["Invalid line"].
Proof.
  intros Hne Hcs Hlen _.
  assert (convert (PyStr.strip line) = cs) as Ec
    by (unfold convert; now rewrite Hcs).
  assert (validate cs = PyFalse) as V.
  { rewrite <- Ec, validate_convert, Ec.
    destruct (length cs =? 10)%nat eqn:E; [ | reflexivity ].
    apply Nat.eqb_eq in E. lia. }
  assert (process (PyStr.strip line) = Some PFalse) as P
    by (unfold process; now rewrite Ec, V).
  repeat split; try assumption.
  destruct line as [|c line]; [ now contradiction Hne | ].
  cbn [read_input]. now rewrite P.
Qed.

Lemma more_than_ten_invalid_witness :
  validate (convert (PyStr.strip eleven_line)) = PyFalse /\
  process (PyStr.strip eleven_line) = Some PFalse /\
  read_input [eleven_line] = Some ["Invalid line"].
Proof.
  apply (more_than_ten_invalid eleven_line (convert (PyStr.strip eleven_line))).
  - intros H. vm_compute in H. discriminate H.
  - reflexivity.
  - vm_compute. lia.
  - vm_compute.
    repeat (apply NoDup_cons;
            [ cbn [In]; intros H;
              repeat (destruct H as [H | H]; [ discriminate H | ]); exact H | ]).
    apply NoDup_nil.
Defined.

(** C1 on the code: the line TH JH QC QD QS QH KH AH 2S TH holds the
    card TH twice, and it is validated and evaluated: the line printed
    for it is straight-flush. *)
Theorem duplicate_line_accepted :
  length (convert (PyStr.strip duplicate_line)) = 10%nat /\
  ~ NoDup (map Card.card (convert (PyStr.strip duplicate_line))) /\
  validate (convert (PyStr.strip duplicate_line))
  = PyVal (convert (PyStr.strip duplicate_line)) /\
  read_input [duplicate_line] = Some ["straight-flush"].
Proof.
  split; [ reflexivity | ]. split; [ | split; reflexivity ].
  intros H. vm_compute in H.
  inversion H as [|x l Hn _]. apply Hn.
  cbn [In]. do 8 right. left. reflexivity.
Qed.

(** C2 on the code: for the first line of the sample input the line
    printed is the name of the rank alone, not the line of the sample
    output. *)
Theorem sample_line_prints_rank_only :
  read_input [first_sample_line] = Some ["straight-flush"] /\
  read_input [first_sample_line] <> Some [first_sample_output].
Proof.
  assert (read_input [first_sample_line] = Some ["straight-flush"]) as R
    by (vm_compute; reflexivity).
  split; [ exact R | ]. rewrite R. discriminate.
Qed.

Example sample_output :
  read_input (map (fun l => (l ++ newline)%string) sample_lines)
  = Some rank_names_descending.
Proof. vm_compute. reflexivity. Qed.

(** ** Upper case *)

Lemma isspace_upper_char (c : ascii) :
  PyStr.isspace (PyStr.upper_char c) = PyStr.isspace c.
Proof.
  destruct c as [[] [] [] [] [] [] [] []]; reflexivity.
Qed.

Lemma lstrip_upper (s : string) :
  PyStr.lstrip (PyStr.upper s) = PyStr.upper (PyStr.lstrip s).
Proof.
  induction s as [|c s IH]; simpl.
  - reflexivity.
  - rewrite isspace_upper_char. destruct (PyStr.isspace c); [ exact IH | ].
    reflexivity.
Qed.

Lemma rstrip_upper (s : string) :
  PyStr.rstrip (PyStr.upper s) = PyStr.upper (PyStr.rstrip s).
Proof.
  induction s as [|c s IH]; simpl.
  - reflexivity.
  - rewrite IH, isspace_upper_char.
    destruct (PyStr.rstrip s); simpl; [ | reflexivity ].
    destruct (PyStr.isspace c); reflexivity.
Qed.

Lemma strip_upper (s : string) :
  PyStr.strip (PyStr.upper s) = PyStr.upper (PyStr.strip s).
Proof. unfold PyStr.strip. now rewrite lstrip_upper, rstrip_upper. Qed.

Lemma convert_upper (line : string) :
  convert (PyStr.upper line) = convert line.
Proof. unfold convert. now rewrite upper_idem. Qed.

Lemma process_upper (line : string) :
  process (PyStr.upper line) = process line.
Proof. unfold process. now rewrite convert_upper. Qed.

Lemma read_input_upper (fd : list string) :
  read_input (map PyStr.upper fd) = read_input fd.
Proof.
  induction fd as [|line fd IH]; simpl.
  - reflexivity.
  - destruct line as [|c line]; [ reflexivity | ].
    change (String (PyStr.upper_char c) (PyStr.upper line))
      with (PyStr.upper (String c line)).
    rewrite strip_upper, process_upper, IH.
    cbn [PyStr.upper]. reflexivity.
Qed.

Lemma upper_append (a b : string) :
  PyStr.upper (a ++ b) = (PyStr.upper a ++ PyStr.upper b)%string.
Proof.
  induction a as [|c a IH]; simpl; [ reflexivity | now rewrite IH ].
Qed.

Lemma upper_join_spaces (tokens : list string) :
  PyStr.upper (join_spaces tokens) = join_spaces (map PyStr.upper tokens).
Proof.
  induction tokens as [|t [|t' rest] IH]; try reflexivity.
  change (join_spaces (t :: t' :: rest))
    with (t ++ " " ++ join_spaces (t' :: rest))%string.
  rewrite !upper_append, IH. reflexivity.
Qed.

Lemma table_not_space (c : ascii) :
  In c (PyStr.chars Card._FIG) \/ In c (PyStr.chars Card._SUIT) ->
  PyStr.isspace c = false.
Proof.
  intros [H | H]; simpl in H;
    repeat (destruct H as [<- | H]; [ reflexivity | ]); contradiction.
Qed.

(** A card token in front of a string is read by [split] as one token
    as soon as a space or the end of the string follows it. *)
Lemma split_card_token (t rest : string) :
  card_token t ->
  PyStr.split_from "" (t ++ rest) = PyStr.split_from t rest.
Proof.
  intros (f & s & Hf & Hs & ->). unfold token. simpl.
  rewrite (table_not_space f (or_introl Hf)).
  now rewrite (table_not_space s (or_intror Hs)).
Qed.

Lemma split_join_spaces (tokens : list string) :
  Forall card_token tokens ->
  PyStr.split (join_spaces tokens) = tokens.
Proof.
  unfold PyStr.split. induction 1 as [|t rest Ht _ IH]; [ reflexivity | ].
  destruct rest as [|t' rest].
  - cbn [join_spaces].
    replace t with (t ++ "")%string at 1
      by (destruct Ht as (f & s & _ & _ & ->); reflexivity).
    rewrite (split_card_token t "" Ht).
    destruct Ht as (f & s & _ & _ & ->). reflexivity.
  - change (join_spaces (t :: t' :: rest))
      with (t ++ " " ++ join_spaces (t' :: rest))%string.
    rewrite (split_card_token t _ Ht).
    destruct Ht as (f & s & _ & _ & ->). cbn [PyStr.split_from append token].
    change (PyStr.isspace " ") with true. cbv iota. now rewrite IH.
Qed.

Lemma card_token_parses (o : nat) (t : string) :
  card_token t ->
  exists c, Card.init o t = Some c /\ Card.str c = Some t.
Proof.
  intros (f & s & Hf & Hs & ->). simpl in Hf, Hs.
  repeat (destruct Hf as [<- | Hf]; [ | ]); try contradiction;
    repeat (destruct Hs as [<- | Hs]; [ | ]); try contradiction;
    (eexists; split; reflexivity).
Qed.

Lemma card_tokens_parse (o : nat) (tokens : list string) :
  Forall card_token tokens ->
  exists cs, map_Card o tokens = Some cs /\
             map Card.str cs = map Some tokens.
Proof.
  intros H. revert o. induction H as [|t rest Ht _ IH]; intros o.
  - exists []. auto.
  - destruct (card_token_parses o t Ht) as (c & Ec & Sc).
    destruct (IH (S o)) as (cs & Ecs & Scs).
    exists (c :: cs). cbn [map_Card map]. now rewrite Ec, Ecs, Sc, Scs.
Qed.

Lemma card_token_upper (t : string) : card_token t -> PyStr.upper t = t.
Proof.
  intros (f & s & Hf & Hs & ->). simpl in Hf, Hs.
  repeat (destruct Hf as [<- | Hf]; [ | ]); try contradiction;
    repeat (destruct Hs as [<- | Hs]; [ | ]); try contradiction;
    reflexivity.
Qed.

Lemma card_token_lower (t : string) :
  card_token t -> PyStr.upper (lower t) = t.
Proof.
  intros (f & s & Hf & Hs & ->). simpl in Hf, Hs.
  repeat (destruct Hf as [<- | Hf]; [ | ]); try contradiction;
    repeat (destruct Hs as [<- | Hs]; [ | ]); try contradiction;
    reflexivity.
Qed.

Lemma spellings_upper (spelt tokens : list string) :
  Forall2 spelling_of spelt tokens ->
  map PyStr.upper spelt = tokens /\ Forall card_token tokens.
Proof.
  induction 1 as [|t' t spelt tokens [Ht E] _ [IH1 IH2]].
  - split; [ reflexivity | constructor ].
  - split; [ cbn [map]; now rewrite E, IH1 | now constructor ].
Qed.

(** The cards [convert] makes of card tokens written in any case. *)
Lemma convert_spellings (spelt tokens : list string) :
  Forall2 spelling_of spelt tokens ->
  exists cs,
    convert (join_spaces spelt) = cs /\
    map_Card O tokens = Some cs /\
    map Card.str cs = map Some tokens.
Proof.
  intros H. destruct (spellings_upper _ _ H) as [U T].
  destruct (card_tokens_parse O tokens T) as (cs & Ecs & Scs).
  exists cs. split; [ | split; assumption ].
  unfold convert. now rewrite upper_join_spaces, U, (split_join_spaces _ T), Ecs.
Qed.

(** C8: a line and its upper-cased form give the same cards, the same
    result of [process] and the same printed lines.  Card tokens
    written in lower case, or in any mix of cases, are accepted as the
    corresponding cards: a line of such tokens gives one card for each
    token, the card its upper-case form gives, which prints as the
    upper-case token; the lower-case form of every card token is such
    a spelling, th for TH among them. *)
Theorem upper_case_insensitive (line : string) (spelt tokens : list string) :
  Forall2 spelling_of spelt tokens ->
  convert line = convert (PyStr.upper line) /\
  process line = process (PyStr.upper line) /\
  read_input [line] = read_input [PyStr.upper line] /\
  Card.init O (PyStr.upper "th") = Card.init O "TH" /\
  convert "th" = convert "TH" /\
  map Card.str (convert "th") = [Some "TH"] /\
  map_Card O tokens = Some (convert (join_spaces spelt)) /\
  convert (join_spaces spelt) = convert (join_spaces tokens) /\
  length (convert (join_spaces spelt)) = length tokens /\
  map Card.str (convert (join_spaces spelt)) = map Some tokens /\
  process (join_spaces spelt) = process (join_spaces tokens) /\
  (forall t, card_token t -> spelling_of (lower t) t).
Proof.
  intros H.
  split; [ now rewrite convert_upper | ].
  split; [ now rewrite process_upper | ].
  split; [ symmetry; apply (read_input_upper [line]) | ].
  do 3 (split; [ reflexivity | ]).
  destruct (convert_spellings _ _ H) as (cs & Ec & Em & Es).
  destruct (spellings_upper _ _ H) as [U T].
  assert (Forall2 spelling_of tokens tokens) as H'.
  { clear - T. induction T as [|t rest Ht _ IH]; constructor; auto.
    split; [ exact Ht | now apply card_token_upper ]. }
  destruct (convert_spellings _ _ H') as (cs' & Ec' & Em' & _).
  assert (cs' = cs) as -> by congruence.
  rewrite Ec. split; [ exact Em | ]. split; [ now rewrite Ec' | ].
  split.
  { apply (f_equal (@length (option string))) in Es.
    now rewrite !length_map in Es. }
  split; [ exact Es | ]. split.
  - unfold process. now rewrite Ec, Ec'.
  - intros t Ht. split; [ exact Ht | now apply card_token_lower ].
Qed.

Lemma sample_spellings : Forall2 spelling_of lower_sample_tokens upper_sample_tokens.
Proof.
  unfold lower_sample_tokens, upper_sample_tokens.
  repeat (apply Forall2_cons;
          [ split; [ eexists; eexists;
                     split; [ | split; [ | reflexivity ] ];
                     simpl; repeat first [ left; reflexivity | right ]
                   | reflexivity ] | ]).
  apply Forall2_nil.
Defined.

Lemma upper_case_insensitive_witness :
  convert "th jh" = convert (PyStr.upper "th jh") /\
  process "th jh" = process (PyStr.upper "th jh") /\
  read_input ["th jh"] = read_input [PyStr.upper "th jh"] /\
  Card.init O (PyStr.upper "th") = Card.init O "TH" /\
  convert "th" = convert "TH" /\
  map Card.str (convert "th") = [Some "TH"] /\
  map_Card O upper_sample_tokens
  = Some (convert (join_spaces lower_sample_tokens)) /\
  convert (join_spaces lower_sample_tokens)
  = convert (join_spaces upper_sample_tokens) /\
  length (convert (join_spaces lower_sample_tokens))
  = length upper_sample_tokens /\
  map Card.str (convert (join_spaces lower_sample_tokens))
  = map Some upper_sample_tokens /\
  process (join_spaces lower_sample_tokens)
  = process (join_spaces upper_sample_tokens) /\
  (forall t, card_token t -> spelling_of (lower t) t).
Proof.
  apply (upper_case_insensitive "th jh" lower_sample_tokens upper_sample_tokens).
  exact sample_spellings.
Defined.

(* ================================================================== *)
(** * Further properties of the code *)

(** ** Parsing a card *)

Lemma dict_get_in (d : list (ascii * Z)) (k : ascii) :
  (exists v, dict_get d k = Some v) <-> In k (map fst d).
Proof.
  induction d as [|[k' v] d IH]; simpl.
  - split; [ intros [v H]; discriminate H | intros [] ].
  - destruct (dict_get d k) as [v'|] eqn:E.
    + split; [ intros _; right; apply IH; now exists v' | intros _; now exists v' ].
    + destruct (Ascii.eqb k' k) eqn:Ek.
      * apply Ascii.eqb_eq in Ek. split; [ now left | intros _; now exists v ].
      * apply Ascii.eqb_neq in Ek. split.
        -- intros [v0 H]; discriminate H.
        -- intros [H | H]; [ contradiction | ].
           apply IH in H. destruct H as [v0 H]. discriminate H.
Qed.

Lemma CARD_keys : map fst Card._CARD = card_chars.
Proof. reflexivity. Qed.

Lemma index_nonneg (s : string) (i : Z) :
  0 <= i ->
  PyStr.index s i
  = if i <? Z.of_nat (String.length s)
    then nth_error (PyStr.chars s) (Z.to_nat i) else None.
Proof.
  intros H. unfold PyStr.index.
  destruct (0 <=? i) eqn:E0; [ | apply Z.leb_gt in E0; lia ].
  destruct (i <? Z.of_nat (String.length s)) eqn:E1; [ reflexivity | ].
  destruct (i <? 0) eqn:E2; [ apply Z.ltb_lt in E2; lia | ].
  cbn [andb]. now rewrite andb_false_r.
Qed.

Lemma index_0 (tok : string) :
  PyStr.index tok 0
  = match tok with EmptyString => None | String c _ => Some c end.
Proof.
  rewrite index_nonneg by lia. destruct tok as [|c tok]; reflexivity.
Qed.

Lemma index_1 (tok : string) :
  PyStr.index tok 1
  = match tok with
    | String _ (String c _) => Some c
    | _ => None
    end.
Proof.
  rewrite index_nonneg by lia. destruct tok as [|c0 [|c1 tok]]; try reflexivity.
  cbn [String.length].
  destruct (1 <? Z.of_nat (S (S (String.length tok)))) eqn:E;
    [ reflexivity | apply Z.ltb_ge in E; lia ].
Qed.

(** What [Card(token)] does with the two characters it reads. *)
Lemma init_two (o : nat) (tok : string) :
  Card.init o tok
  = match tok with
    | String c0 (String c1 _) =>
        v0 <- dict_get Card._CARD c0 ;;
        v1 <- dict_get Card._CARD c1 ;;
        Some (Card.mk o (v0 + v1))
    | _ => None
    end.
Proof.
  unfold Card.init. rewrite index_0, index_1.
  destruct tok as [|c0 [|c1 tok]]; try reflexivity.
  destruct (dict_get Card._CARD c0); reflexivity.
Qed.

(** X1: [Card(token)] returns a card exactly when the token has at
    least two characters and each of the first two is one of the 17
    characters of the table, figure or suit alike; anything after the
    second character is not read. *)
Theorem init_accepts (o : nat) (tok : string) :
  (exists c, Card.init o tok = Some c) <->
  (exists c0 c1 rest,
     tok = String c0 (String c1 rest) /\ In c0 card_chars /\ In c1 card_chars).
Proof.
  rewrite init_two. rewrite <- CARD_keys. split.
  - intros [c H]. destruct tok as [|c0 [|c1 rest]]; try discriminate H.
    exists c0, c1, rest. split; [ reflexivity | ].
    destruct (dict_get Card._CARD c0) as [v0|] eqn:E0; [ | discriminate H ].
    destruct (dict_get Card._CARD c1) as [v1|] eqn:E1; [ | discriminate H ].
    split; apply dict_get_in; eauto.
  - intros (c0 & c1 & rest & -> & H0 & H1).
    apply dict_get_in in H0, H1. destruct H0 as [v0 ->], H1 as [v1 ->].
    eauto.
Qed.

(** X2: the two characters of a token are added up whatever their
    order, so a token and the token with its two characters exchanged
    make cards of the same value (HT is read as TH). *)
Theorem init_exchange (o : nat) (a b : ascii) :
  Card.init o (token a b) = Card.init o (token b a) /\
  Card.init o "HT" = Card.init o "TH".
Proof.
  split; [ | reflexivity ].
  rewrite !init_two. unfold token.
  destruct (dict_get Card._CARD a) as [va|], (dict_get Card._CARD b) as [vb|];
    try reflexivity.
  now rewrite Z.add_comm.
Qed.

(** ** Lines that are not evaluated *)

Lemma init_oid_free (o o' : nat) (tok : string) :
  Card.init o tok = None -> Card.init o' tok = None.
Proof.
  rewrite !init_two. destruct tok as [|c0 [|c1 rest]]; try reflexivity.
  destruct (dict_get Card._CARD c0), (dict_get Card._CARD c1);
    try reflexivity; discriminate.
Qed.

Lemma map_Card_none (o : nat) (tokens : list string) :
  map_Card o tokens = None <-> some_token_fails tokens.
Proof.
  unfold some_token_fails. revert o.
  induction tokens as [|tok tokens IH]; intros o; simpl.
  - split; [ discriminate | intros (tok & [] & _) ].
  - destruct (Card.init o tok) as [c|] eqn:Ec.
    + destruct (map_Card (S o) tokens) as [cs|] eqn:Ecs.
      * split; [ discriminate | ].
        intros (t & [<- | I] & F).
        -- apply (init_oid_free _ o) in F. congruence.
        -- assert (map_Card (S o) tokens = None) by (apply IH; eauto).
           congruence.
      * split; [ intros _ | reflexivity ].
        destruct (proj1 (IH (S o)) Ecs) as (t & I & F). eauto.
    + split; [ intros _ | reflexivity ].
      exists tok. split; [ now left | ]. now apply (init_oid_free o).
Qed.

Lemma map_Card_length (o : nat) (tokens : list string) (cs : list Card.t) :
  map_Card o tokens = Some cs -> length cs = length tokens.
Proof.
  intros H. apply map_Card_oid in H.
  apply (f_equal (@length nat)) in H.
  now rewrite length_map, length_seq in H.
Qed.

(** X3: when one token of a line does not make a card, [convert]
    gives the empty list, whatever the other tokens are, and the line
    is printed as [Invalid line]. *)
Theorem bad_token_invalid (line : string) :
  some_token_fails (PyStr.split (PyStr.upper line)) ->
  convert line = [] /\
  process line = Some PFalse /\
  print_or_invalid PFalse = Some "Invalid line".
Proof.
  intros H. apply (map_Card_none O) in H.
  assert (convert line = []) as E by (unfold convert; now rewrite H).
  split; [ exact E | ]. split; [ | reflexivity ].
  unfold process. rewrite E. reflexivity.
Qed.

Lemma bad_token_invalid_witness :
  convert "XX JH QC QD QS QH KH AH 2S 6S" = [] /\
  process "XX JH QC QD QS QH KH AH 2S 6S" = Some PFalse /\
  print_or_invalid PFalse = Some "Invalid line".
Proof.
  apply (bad_token_invalid "XX JH QC QD QS QH KH AH 2S 6S").
  exists "XX". split; [ vm_compute; left; reflexivity | vm_compute; reflexivity ].
Defined.

(** X4: a line is evaluated exactly when it has ten tokens and every
    token makes a card: [process] then returns a hand of five cards,
    and in every other case it returns [False].  The values of the
    cards play no part in this. *)
Theorem process_accepts (line : string) :
  let tokens := PyStr.split (PyStr.upper line) in
  ((exists h, process line = Some (PHand h) /\ length (Hand.cards h) = 5%nat) <->
   (length tokens = 10%nat /\ ~ some_token_fails tokens)) /\
  (process line = Some PFalse <->
   ~ (length tokens = 10%nat /\ ~ some_token_fails tokens)).
Proof.
  cbv zeta. set (tokens := PyStr.split (PyStr.upper line)).
  assert (length (convert line) = 10%nat <->
          length tokens = 10%nat /\ ~ some_token_fails tokens) as K.
  { unfold convert. fold tokens.
    destruct (map_Card O tokens) as [cs|] eqn:E.
    - rewrite (map_Card_length _ _ _ E). split; [ | tauto ].
      intros L. split; [ exact L | ].
      intros F. apply (map_Card_none O) in F. congruence.
    - split; [ discriminate | ].
      intros [_ F]. exfalso. apply F. now apply (map_Card_none O). }
  rewrite <- K. unfold process. rewrite validate_convert.
  destruct (length (convert line) =? 10)%nat eqn:E.
  - apply Nat.eqb_eq in E.
    destruct (best_combinations_fold _ E) as (best & vs & _ & B & C & _).
    destruct (convert line) as [|c cs] eqn:Ec; [ discriminate E | ].
    rewrite B. split; split; try tauto.
    + intros _. exists best. split; [ reflexivity | apply C ].
    + discriminate.
  - apply Nat.eqb_neq in E. split; split; try tauto.
    intros (h & H & _). discriminate H.
Qed.

(** ** Hand objects *)

Lemma list_set_length {A} (xs : list A) (i : nat) (v : A) :
  length (list_set xs i v) = length xs.
Proof.
  revert i. induction xs as [|x xs IH]; intros [|i]; simpl; auto.
Qed.

Lemma list_set_same {A} (xs : list A) (i : nat) (v : A) :
  (i < length xs)%nat -> nth_error (list_set xs i v) i = Some v.
Proof.
  revert i. induction xs as [|x xs IH]; intros [|i] H; simpl in *;
    try lia; [ reflexivity | apply IH; lia ].
Qed.

Lemma list_set_other {A} (xs : list A) (i j : nat) (v : A) :
  j <> i -> nth_error (list_set xs i v) j = nth_error xs j.
Proof.
  revert i j. induction xs as [|x xs IH]; intros [|i] [|j] H; simpl;
    try reflexivity; try contradiction.
  apply IH. congruence.
Qed.

(** X5: [replace] with an index from [-len] to [len - 1] puts the card
    at the position the index stands for (a negative index counts from
    the end), leaves the other positions and the number of cards as
    they were and empties the cached rank; with any other index, below
    [-len] or from [len] on, it raises and nothing is returned.  With
    an index that is not negative it does what [Hand.replace] does at
    that position. *)
Theorem replace_lookup (h : Hand.t) (index : Z) (c : Card.t) :
  let n := length (Hand.cards h) in
  (- Z.of_nat n <= index < Z.of_nat n ->
   exists h',
     Hand_replace h index c = Some h' /\
     length (Hand.cards h') = n /\
     (position_of n index < n)%nat /\
     nth_error (Hand.cards h') (position_of n index) = Some c /\
     (forall j, j <> position_of n index ->
                nth_error (Hand.cards h') j = nth_error (Hand.cards h) j) /\
     Hand.rank h' = None) /\
  (index < - Z.of_nat n \/ Z.of_nat n <= index ->
   Hand_replace h index c = None) /\
  (forall i : nat, Hand_replace h (Z.of_nat i) c = Hand.replace h i c).
Proof.
  cbv zeta. unfold Hand_replace, position_of.
  set (n := length (Hand.cards h)). split; [ | split ].
  - intros H.
    destruct (0 <=? index) eqn:E0.
    + apply Z.leb_le in E0.
      assert ((index <? Z.of_nat n) = true) as -> by (apply Z.ltb_lt; lia).
      assert ((index <? 0) = false) as -> by (apply Z.ltb_ge; lia).
      cbn [andb]. eexists. split; [ reflexivity | ].
      cbn [Hand.cards Hand.rank].
      assert (Z.to_nat index < n)%nat as Hp by lia.
      split; [ apply list_set_length | ]. split; [ exact Hp | ].
      split; [ now apply list_set_same | ].
      split; [ intros j Hj; now apply list_set_other | reflexivity ].
    + apply Z.leb_gt in E0.
      assert ((- Z.of_nat n <=? index) = true) as -> by (apply Z.leb_le; lia).
      assert ((index <? 0) = true) as -> by (apply Z.ltb_lt; lia).
      cbn [andb]. eexists. split; [ reflexivity | ].
      cbn [Hand.cards Hand.rank].
      assert (Z.to_nat (Z.of_nat n + index) < n)%nat as Hp by lia.
      split; [ apply list_set_length | ]. split; [ exact Hp | ].
      split; [ now apply list_set_same | ].
      split; [ intros j Hj; now apply list_set_other | reflexivity ].
  - intros [H | H].
    + assert ((0 <=? index) = false) as -> by (apply Z.leb_gt; lia).
      assert ((- Z.of_nat n <=? index) = false) as -> by (apply Z.leb_gt; lia).
      reflexivity.
    + assert ((index <? Z.of_nat n) = false) as -> by (apply Z.ltb_ge; lia).
      assert ((index <? 0) = false) as -> by (apply Z.ltb_ge; lia).
      now rewrite !andb_false_r.
  - intros i. unfold Hand.replace. fold n.
    assert ((0 <=? Z.of_nat i) = true) as -> by (apply Z.leb_le; lia).
    rewrite Nat2Z.id. cbn [andb].
    destruct (i <? n)%nat eqn:E.
    + apply Nat.ltb_lt in E.
      now assert ((Z.of_nat i <? Z.of_nat n) = true) as -> by (apply Z.ltb_lt; lia).
    + apply Nat.ltb_ge in E.
      assert ((Z.of_nat i <? Z.of_nat n) = false) as -> by (apply Z.ltb_ge; lia).
      assert ((Z.of_nat i <? 0) = false) as -> by (apply Z.ltb_ge; lia).
      now rewrite andb_false_r.
Qed.

(** The last card of a hand is replaced through the index -1. *)
Example replace_last :
  option_map Hand.cards (Hand_replace sample_hand (-1) (Card.mk 77 163))
  = Some (list_set (Hand.cards sample_hand) 4 (Card.mk 77 163)) /\
  Hand_replace sample_hand (-6) (Card.mk 77 163) = None /\
  Hand_replace sample_hand 5 (Card.mk 77 163) = None.
Proof. repeat split; reflexivity. Qed.

(** X6: the cached rank is never stale.  After a [replace] in a hand of
    five cards, whether its rank was cached or not, [str] returns what
    [evaluate] gives for the new cards, and a second [str] returns the
    same name and leaves the object as it is. *)
Theorem cache_never_stale (h : Hand.t) (i : nat) (c : Card.t) :
  coherent h -> (i < 5)%nat ->
  exists h1 h2 r,
    Hand.replace h i c = Some h1 /\
    Hand.str h1 = Some (r, h2) /\
    Hand.evaluate (Hand.init (list_set (Hand.cards h) i c)) = Some r /\
    Hand.cards h2 = list_set (Hand.cards h) i c /\
    Hand.str h2 = Some (r, h2).
Proof.
  intros [L C] Hi.
  set (h1 := Hand.mk (list_set (Hand.cards h) i c) None).
  assert (Hand.replace h i c = Some h1) as R.
  { unfold Hand.replace. rewrite L.
    apply Nat.ltb_lt in Hi. now rewrite Hi. }
  assert (coherent h1) as C1.
  { split; [ | now left ]. unfold h1. cbn [Hand.cards].
    now rewrite list_set_length. }
  destruct (str_coherent h1 C1) as (r & E & S).
  exists h1, (Hand.mk (Hand.cards h1) (Some r)), r.
  split; [ exact R | ]. split; [ exact S | ]. split; [ exact E | ].
  split; [ reflexivity | ].
  assert (coherent (Hand.mk (Hand.cards h1) (Some r))) as C2
    by (split; [ apply C1 | right; exact E ]).
  destruct (str_coherent _ C2) as (r' & E' & S').
  change (Hand.evaluate h1 = Some r') in E'.
  rewrite E in E'. injection E' as <-. exact S'.
Qed.

Lemma cache_never_stale_witness :
  exists h1 h2 r,
    Hand.replace sample_hand 2 (Card.mk 77 163) = Some h1 /\
    Hand.str h1 = Some (r, h2) /\
    Hand.evaluate
      (Hand.init (list_set (Hand.cards sample_hand) 2 (Card.mk 77 163)))
    = Some r /\
    Hand.cards h2 = list_set (Hand.cards sample_hand) 2 (Card.mk 77 163) /\
    Hand.str h2 = Some (r, h2).
Proof.
  apply (cache_never_stale sample_hand 2 (Card.mk 77 163)).
  - split; [ vm_compute; reflexivity | left; reflexivity ].
  - lia.
Defined.

Lemma list_index_inj (l : list string) (r r' : string) (i : nat) :
  list_index l r = Some i -> list_index l r' = Some i -> r = r'.
Proof.
  intros H H'. apply list_index_nth in H, H'. congruence.
Qed.

(** X7: on two hands of five cards [!=] and [>] agree: the hands are
    unequal exactly when one of them is greater than the other, although
    the first compares the names of the ranks and the second their
    positions in [_RANK]. *)
Theorem ne_agrees_with_gt (a b : Hand.t) :
  coherent a -> coherent b ->
  exists n g1 g2 a1 b1 a2 b2 a3 b3,
    Hand_ne a b = Some (n, a1, b1) /\
    Hand.gt a b = Some (g1, a2, b2) /\
    Hand.gt b a = Some (g2, b3, a3) /\
    n = g1 || g2.
Proof.
  intros Ca Cb.
  destruct (str_coherent a Ca) as (ra & Ea & Sa).
  destruct (str_coherent b Cb) as (rb & Eb & Sb).
  destruct (evaluate_total a (proj1 Ca)) as (ra' & i & Ea' & Ia & _).
  destruct (evaluate_total b (proj1 Cb)) as (rb' & j & Eb' & Ib & _).
  rewrite Ea in Ea'. injection Ea' as <-.
  rewrite Eb in Eb'. injection Eb' as <-.
  pose proof (int_index a ra i Ca Ea Ia) as Ha.
  pose proof (int_index b rb j Cb Eb Ib) as Hb.
  unfold Hand_ne, Hand.gt. rewrite Sa, Sb, Ha, Hb.
  do 9 eexists. repeat (split; [ reflexivity | ]).
  destruct (String.eqb ra rb) eqn:E; cbn [negb].
  - apply String.eqb_eq in E. subst rb.
    assert (i = j) as -> by congruence.
    now rewrite Nat.ltb_irrefl.
  - apply String.eqb_neq in E.
    assert (i <> j) as Hne.
    { intros ->. apply E. eapply list_index_inj; eassumption. }
    destruct (j <? i)%nat eqn:E1; [ reflexivity | ].
    apply Nat.ltb_ge in E1. symmetry. apply Nat.ltb_lt. lia.
Qed.

Lemma ne_agrees_with_gt_witness :
  exists n g1 g2 a1 b1 a2 b2 a3 b3,
    Hand_ne sample_hand sample_deck_hand = Some (n, a1, b1) /\
    Hand.gt sample_hand sample_deck_hand = Some (g1, a2, b2) /\
    Hand.gt sample_deck_hand sample_hand = Some (g2, b3, a3) /\
    n = g1 || g2.
Proof.
  apply (ne_agrees_with_gt sample_hand sample_deck_hand);
    (split; [ vm_compute; reflexivity | left; reflexivity ]).
Defined.

(** ** What the generator yields *)

Lemma trace_subsets :
  exists built,
    discard_trace discard_fuel [] O = Some built /\
    Permutation ([] :: built) position_subsets.
Proof.
  eexists. split; [ vm_compute; reflexivity | ].
  unfold position_subsets. cbn [sublists map app]. perm_explicit.
Qed.

Lemma position_subsets_NoDup : NoDup position_subsets.
Proof.
  destruct enumerated_subsets as (vs & _ & P & N & _).
  eapply Permutation_NoDup; eassumption.
Qed.

Lemma increasing_in_length (lo hi : nat) (v : list nat) :
  increasing_in lo hi v -> (length v <= hi - lo)%nat.
Proof.
  revert lo. induction v as [|x v IH]; intros lo H; cbn [increasing_in length] in *.
  - lia.
  - destruct H as (H1 & H2 & H3). apply IH in H3. lia.
Qed.

(** X8: for every [n] the generator stops; it yields each list of [n]
    different positions of the hand, in increasing order, exactly once,
    and nothing else.  For [n = 0] and for [n > 5] it yields nothing. *)
Theorem discard_yields (n : nat) :
  exists ys,
    discard n = Some ys /\ NoDup ys /\
    (forall v, In v ys <->
               increasing_in 0 5 v /\ length v = n /\ (0 < n)%nat) /\
    (n = O \/ (5 < n)%nat -> ys = []).
Proof.
  destruct trace_subsets as (built & T & P).
  destruct (discard_total n) as (built' & T' & _ & D).
  rewrite T in T'. injection T' as <-.
  pose proof position_subsets_NoDup as N.
  apply (Permutation_NoDup (Permutation_sym P)) in N.
  assert (forall v, In v built <-> increasing_in 0 5 v /\ v <> []) as B.
  { intros v. rewrite <- position_subsets_increasing. split.
    - intros I. split.
      + eapply Permutation_in; [ exact P | now right ].
      + intros ->. inversion N as [|x l Hn _]. contradiction.
    - intros [I Hne]. apply (Permutation_in _ (Permutation_sym P)) in I.
      destruct I as [<- | I]; [ contradiction | exact I ]. }
  assert (forall v, In v (filter (fun v => (length v =? n)%nat) built) <->
                    increasing_in 0 5 v /\ length v = n /\ (0 < n)%nat) as F.
  { intros v. rewrite filter_In, B, Nat.eqb_eq. split.
    - intros [[I Hne] L]. repeat split; auto.
      destruct v; [ contradiction | simpl in L; lia ].
    - intros (I & L & Hn). repeat split; auto.
      intros ->. simpl in L. lia. }
  eexists. split; [ exact D | ]. split; [ | split; [ exact F | ] ].
  - apply NoDup_filter. inversion N; assumption.
  - intros Hn.
    destruct (filter (fun v => (length v =? n)%nat) built) as [|v ys] eqn:E;
      [ reflexivity | exfalso ].
    destruct (proj1 (F v) (or_introl eq_refl)) as (I & L & Hp).
    destruct Hn as [-> | Hn]; [ lia | ].
    apply increasing_in_length in I. lia.
Qed.

(** ** What the search returns *)

Lemma substitute_from_incl (i : nat) (hand deck : list Card.t)
  (chosen : list nat) :
  incl (substitute_from i hand deck chosen) (hand ++ deck).
Proof.
  revert i deck. induction hand as [|c hand IH]; intros i deck x Hx.
  - destruct Hx.
  - cbn [substitute_from] in Hx.
    destruct (existsb (Nat.eqb i) chosen); [ destruct deck as [|d deck] | ];
      destruct Hx as [<- | Hx].
    + now left.
    + right. exact (IH _ _ _ Hx).
    + right. apply in_or_app. right. now left.
    + apply IH in Hx. apply in_app_or in Hx. right. apply in_or_app.
      destruct Hx; [ now left | right; now right ].
    + now left.
    + right. exact (IH _ _ _ Hx).
Qed.

(** The hand returned is a candidate, and no candidate has a higher
    rank. *)
Lemma best_is_top_candidate (cards : list Card.t) :
  length cards = 10%nat ->
  exists best,
    best_combinations cards = Some best /\ coherent best /\
    In (Hand.cards best) (candidates cards) /\
    forall c, In c (candidates cards) ->
              (rank_nat c <= rank_nat (Hand.cards best))%nat.
Proof.
  intros L.
  destruct (best_combinations_fold cards L) as (best & vs & E & B & C & F).
  pose proof (candidates_enumerated cards vs E) as P.
  exists best. split; [ exact B | ]. split; [ exact C | ]. split.
  - eapply Permutation_in; [ exact P | ]. rewrite F. apply fold_pick_in.
  - intros c I. rewrite F. apply fold_pick_max.
    eapply Permutation_in; [ apply Permutation_sym, P | exact I ].
Qed.

(** X9: the search neither adds nor invents cards: the hand it returns
    for a record of ten cards has five cards, each of them one of the
    ten cards of the record. *)
Theorem best_cards_from_record (cards : list Card.t) :
  length cards = 10%nat ->
  exists best,
    best_combinations cards = Some best /\
    length (Hand.cards best) = 5%nat /\
    incl (Hand.cards best) cards.
Proof.
  intros L. destruct (best_is_top_candidate cards L) as (best & B & C & I & _).
  exists best. split; [ exact B | ]. split; [ apply C | ].
  unfold candidates in I. apply in_map_iff in I. destruct I as (v & <- & _).
  rewrite <- (firstn_skipn 5 cards) at 3. apply substitute_from_incl.
Qed.

Lemma best_cards_from_record_witness :
  exists best,
    best_combinations sample_cards = Some best /\
    length (Hand.cards best) = 5%nat /\
    incl (Hand.cards best) sample_cards.
Proof.
  apply (best_cards_from_record sample_cards). vm_compute. reflexivity.
Defined.

Lemma fold_pick_first (cs : list (list Card.t)) (b : list Card.t) :
  exists pre post,
    b :: cs = pre ++ fold_left pick cs b :: post /\
    Forall (fun c => (rank_nat c < rank_nat (fold_left pick cs b))%nat) pre /\
    Forall (fun c => (rank_nat c <= rank_nat (fold_left pick cs b))%nat) post.
Proof.
  revert b. induction cs as [|c cs IH]; intros b; cbn [fold_left].
  - exists [], []. repeat split; constructor.
  - destruct (IH (pick b c)) as (pre & post & E & Hpre & Hpost).
    pose proof (fold_pick_ge cs (pick b c)) as G.
    remember (fold_left pick cs (pick b c)) as res eqn:Hres. clear Hres.
    destruct (pick_cases b c) as [[Hlt P] | [Hle P]]; rewrite P in E, G.
    + exists (b :: pre), post. split; [ now rewrite E | ].
      split; [ constructor; [ lia | exact Hpre ] | exact Hpost ].
    + destruct pre as [|p pre].
      * injection E as E1 E2. exists [], (c :: post).
        split; [ cbn [app]; now rewrite <- E1, E2 | ].
        split; [ constructor | constructor; [ lia | exact Hpost ] ].
      * injection E as E1 E2. subst p.
        exists (b :: c :: pre), post.
        split; [ cbn [app]; now rewrite E2 | ].
        inversion Hpre as [|? ? Hb Hpre']; subst.
        split; [ | exact Hpost ].
        constructor; [ exact Hb | constructor; [ lia | exact Hpre' ] ].
Qed.

(** X10: among the hands of the highest rank the search returns the
    first one it builds: in the order of the enumeration (the dealt
    hand, then the lists of positions the generator yields for 1 to 5
    cards) every hand built before the one returned has a strictly
    lower rank, and every hand built after it has a rank that is not
    higher.  So the dealt hand is returned when no candidate is
    strictly better. *)
Theorem best_is_first_maximum (cards : list Card.t) :
  length cards = 10%nat ->
  exists best vs pre post,
    best_combinations cards = Some best /\
    enumerated = Some vs /\
    map (substitute (firstn 5 cards) (skipn 5 cards)) vs
    = pre ++ Hand.cards best :: post /\
    Forall (fun c => (rank_nat c < rank_nat (Hand.cards best))%nat) pre /\
    Forall (fun c => (rank_nat c <= rank_nat (Hand.cards best))%nat) post /\
    ((forall c, In c (candidates cards) ->
                (rank_nat c <= rank_nat (firstn 5 cards))%nat) ->
     Hand.cards best = firstn 5 cards).
Proof.
  intros L.
  destruct (best_combinations_fold cards L) as (best & vs & E & B & C & F).
  destruct (fold_pick_first
              (map (substitute (firstn 5 cards) (skipn 5 cards)) vs)
              (firstn 5 cards)) as (pre & post & S & Hpre & Hpost).
  rewrite <- F in S, Hpre, Hpost.
  exists best, ([] :: vs), pre, post.
  split; [ exact B | ]. split; [ exact E | ].
  split; [ | split; [ exact Hpre | split; [ exact Hpost | ] ] ].
  - cbn [map]. unfold substitute at 1. now rewrite substitute_from_nil.
  - intros Hmax. destruct pre as [|p pre].
    + now injection S as <- _.
    + assert (p = firstn 5 cards) as -> by now injection S.
      apply Forall_inv in Hpre. exfalso.
      assert (In (Hand.cards best) (candidates cards)) as I.
      { eapply Permutation_in; [ apply (candidates_enumerated cards vs E) | ].
        rewrite F. apply fold_pick_in. }
      apply Hmax in I. lia.
Qed.

Lemma best_is_first_maximum_witness :
  exists best vs pre post,
    best_combinations sample_cards = Some best /\
    enumerated = Some vs /\
    map (substitute (firstn 5 sample_cards) (skipn 5 sample_cards)) vs
    = pre ++ Hand.cards best :: post /\
    Forall (fun c => (rank_nat c < rank_nat (Hand.cards best))%nat) pre /\
    Forall (fun c => (rank_nat c <= rank_nat (Hand.cards best))%nat) post /\
    ((forall c, In c (candidates sample_cards) ->
                (rank_nat c <= rank_nat (firstn 5 sample_cards))%nat) ->
     Hand.cards best = firstn 5 sample_cards).
Proof.
  apply (best_is_first_maximum sample_cards). vm_compute. reflexivity.
Defined.

(** ** Records that are too short or too long *)

Lemma for_variations_fail (five cards : list Card.t) (best : Hand.t)
  (vs : list (list nat)) (v : list nat) :
  In v vs ->
  replace_loop (Hand.init five) cards O v = None ->
  for_variations five cards best vs = None.
Proof.
  revert best. induction vs as [|v' vs IH]; intros best I F.
  - destruct I.
  - cbn [for_variations]. destruct I as [-> | I].
    + unfold try_variation. now rewrite F.
    + destruct (try_variation five cards best v'); [ now apply IH | reflexivity ].
Qed.

Lemma for_variations_ext (five cards cards' : list Card.t) (best : Hand.t)
  (vs : list (list nat)) :
  (forall v, In v vs ->
     replace_loop (Hand.init five) cards O v
     = replace_loop (Hand.init five) cards' O v) ->
  for_variations five cards best vs = for_variations five cards' best vs.
Proof.
  revert best. induction vs as [|v vs IH]; intros best H.
  - reflexivity.
  - cbn [for_variations]. unfold try_variation.
    rewrite (H v (or_introl eq_refl)).
    destruct (replace_loop (Hand.init five) cards' O v) as [hand|];
      [ | reflexivity ].
    destruct (keep_best hand best); [ | reflexivity ].
    apply IH. intros v' I. apply H. now right.
Qed.

Lemma replace_all_short (cards : list Card.t) :
  (length cards < 10)%nat ->
  replace_loop (Hand.init (firstn 5 cards)) cards O [0; 1; 2; 3; 4]%nat = None.
Proof.
  intros L.
  do 10 (destruct cards as [|? cards]; [ reflexivity | ]).
  cbn [length] in L. lia.
Qed.

(** X11: [best_combinations] needs ten cards.  On fewer than ten it
    raises, the deck having no card for the last position of some list
    the generator yields; on ten or more it returns a hand, and only the
    first ten cards are looked at. *)
Theorem best_combinations_bounds (cards : list Card.t) :
  ((length cards < 10)%nat -> best_combinations cards = None) /\
  ((10 <= length cards)%nat ->
   exists best,
     best_combinations cards = Some best /\
     best_combinations (firstn 10 cards) = Some best).
Proof.
  pose proof enumerated_value as EV.
  destruct enumerated as [[|v0 vs]|] eqn:E; try discriminate EV.
  assert (v0 = []) as -> by (injection EV as -> _; reflexivity).
  split; intros L.
  - rewrite (best_combinations_flat cards vs E).
    apply (for_variations_fail _ _ _ _ [0; 1; 2; 3; 4]%nat).
    + injection EV as ->. cbn [In]. do 30 right. now left.
    + now apply replace_all_short.
  - assert (length (firstn 10 cards) = 10%nat) as L10
      by (rewrite length_firstn; lia).
    destruct (best_combinations_fold _ L10) as (best & _ & _ & B & _).
    exists best. split; [ | exact B ]. rewrite <- B.
    rewrite (best_combinations_flat cards vs E).
    rewrite (best_combinations_flat (firstn 10 cards) vs E).
    do 10 (destruct cards as [|? cards]; [ cbn [length] in L; lia | ]).
    cbn [firstn]. apply for_variations_ext.
    intros v I. injection EV as ->. cbn [In] in I.
    repeat (destruct I as [<- | I]; [ reflexivity | ]).
    contradiction.
Qed.

(** ** The order of the cards in the hand *)

(** Splits a list of values written out in full around [x]. *)
Ltac split_values x l :=
  lazymatch l with
  | x :: ?t => constr:((@nil Z, t))
  | ?y :: ?t =>
      let r := split_values x t in
      lazymatch r with
      | (?a, ?b) => constr:((y :: a, b))
      end
  end.

Ltac perm_values :=
  repeat lazymatch goal with
         | |- Permutation [] [] => apply perm_nil
         | |- Permutation (?x :: ?l) ?l' =>
             let r := split_values x l' in
             lazymatch r with
             | (?a, ?b) =>
                 change l' with (a ++ x :: b);
                 apply Permutation_cons_app; cbn [app]
             end
         end.

Lemma len_set_perm (l l' : list Z) :
  Permutation l l' -> len_set l = len_set l'.
Proof.
  intros P. unfold len_set. apply Permutation_length.
  apply NoDup_Permutation; try apply NoDup_nodup.
  intros x. rewrite !nodup_In. split; apply Permutation_in;
    [ exact P | apply Permutation_sym, P ].
Qed.

Lemma suits_of_values (cs : list Card.t) :
  map Card.suit_only cs = map (fun z => Z.land z 15 - 1) (map Card.card cs).
Proof. now rewrite map_map. Qed.

Lemma figures_of_values (cs : list Card.t) :
  map Card.figure_only cs = map (fun z => Z.shiftr z 4 - 1) (map Card.card cs).
Proof. now rewrite map_map. Qed.

Lemma evaluate_perm_values (h h' : Hand.t) :
  Permutation (map Card.card (Hand.cards h)) (map Card.card (Hand.cards h')) ->
  Hand.evaluate h = Hand.evaluate h'.
Proof.
  intros P. unfold Hand.evaluate.
  rewrite (len_set_perm (map Card.suit_only (Hand.cards h))
                        (map Card.suit_only (Hand.cards h')))
    by (rewrite !suits_of_values; now apply Permutation_map).
  rewrite (sorted_reverse_of_perm (map Card.figure_only (Hand.cards h))
                                  (map Card.figure_only (Hand.cards h')))
    by (rewrite !figures_of_values; now apply Permutation_map).
  reflexivity.
Qed.

(** X12: what [evaluate] returns depends only on the values of the
    cards, not on their order in the hand, on the identity of the
    objects or on the cached rank: two hands whose card values are
    rearrangements of each other are evaluated alike. *)
Theorem evaluate_order_irrelevant (h h' : Hand.t) :
  Permutation (map Card.card (Hand.cards h)) (map Card.card (Hand.cards h')) ->
  Hand.evaluate h = Hand.evaluate h'.
Proof. apply evaluate_perm_values. Qed.

Lemma evaluate_order_irrelevant_witness :
  Hand.evaluate (Hand.mk (Hand.cards sample_hand) (Some "flush"))
  = Hand.evaluate (Hand.init (rev (Hand.cards sample_hand))).
Proof.
  apply (evaluate_order_irrelevant
           (Hand.mk (Hand.cards sample_hand) (Some "flush"))
           (Hand.init (rev (Hand.cards sample_hand)))).
  vm_compute. perm_values.
Defined.

Lemma rank_nat_perm (c c' : list Card.t) :
  Permutation c c' -> rank_nat c = rank_nat c'.
Proof.
  intros P. unfold rank_nat, rank_of, Hand.int, Hand.fill_rank.
  cbn [Hand.rank Hand.init Hand.not_rank Hand.cards].
  fold (Hand.init c). fold (Hand.init c').
  rewrite (evaluate_perm_values (Hand.init c) (Hand.init c'))
    by (now apply Permutation_map).
  destruct (Hand.evaluate (Hand.init c')) as [r|]; [ | reflexivity ].
  cbn [Hand.rank]. destruct (list_index Hand._RANK r); reflexivity.
Qed.

Lemma in_splits_cons (c : Card.t) (hand k : list Card.t) (n : nat) :
  In (k, n) (splits (c :: hand)) <->
  (exists n0, n = S n0 /\ In (k, n0) (splits hand)) \/
  (exists k0, k = c :: k0 /\ In (k0, n) (splits hand)).
Proof.
  cbn [splits]. rewrite in_app_iff, !in_map_iff. split.
  - intros [([k0 n0] & E & I) | ([k0 n0] & E & I)]; injection E as <- <-; eauto.
  - intros [(n0 & -> & I) | (k0 & -> & I)].
    + left. exists (k, n0). auto.
    + right. exists (k0, n). auto.
Qed.

(** The splits of a rearranged hand keep rearranged cards. *)
Lemma splits_perm (hand hand' : list Card.t) :
  Permutation hand hand' ->
  forall k n, In (k, n) (splits hand) ->
              exists k', In (k', n) (splits hand') /\ Permutation k k'.
Proof.
  induction 1 as [|x l l' P IH|x y l|l l' l'' P1 IH1 P2 IH2]; intros k n I.
  - exists k. auto.
  - apply in_splits_cons in I. destruct I as [(n0 & -> & I) | (k0 & -> & I)].
    + destruct (IH _ _ I) as (k' & I' & Pk). exists k'.
      split; [ apply in_splits_cons; eauto | exact Pk ].
    + destruct (IH _ _ I) as (k' & I' & Pk). exists (x :: k').
      split; [ apply in_splits_cons; eauto | now apply perm_skip ].
  - apply in_splits_cons in I. destruct I as [(n0 & -> & I) | (k0 & -> & I)];
      apply in_splits_cons in I;
      destruct I as [(n1 & -> & I) | (k1 & -> & I)].
    + exists k. split; [ | apply Permutation_refl ].
      apply in_splits_cons. left. eexists. split; [ reflexivity | ].
      apply in_splits_cons. eauto.
    + exists (x :: k1). split; [ | apply Permutation_refl ].
      apply in_splits_cons. right. eexists. split; [ reflexivity | ].
      apply in_splits_cons. eauto.
    + exists (y :: k0). split; [ | apply Permutation_refl ].
      apply in_splits_cons. left. eexists. split; [ reflexivity | ].
      apply in_splits_cons. eauto.
    + exists (x :: y :: k1). split; [ | apply perm_swap ].
      apply in_splits_cons. right. eexists. split; [ reflexivity | ].
      apply in_splits_cons. eauto.
  - destruct (IH1 _ _ I) as (k' & I' & Pk).
    destruct (IH2 _ _ I') as (k'' & I'' & Pk').
    exists k''. split; [ exact I'' | eapply perm_trans; eassumption ].
Qed.

Lemma Forall2_in_left {A B} (R : A -> B -> Prop) (l : list A) (l' : list B)
  (x : A) :
  Forall2 R l l' -> In x l -> exists y, In y l' /\ R x y.
Proof.
  induction 1 as [|a b l l' Hab _ IH]; intros I.
  - destruct I.
  - destruct I as [<- | I].
    + exists b. split; [ now left | exact Hab ].
    + destruct (IH I) as (y & Iy & Hy). exists y. split; [ now right | exact Hy ].
Qed.

Lemma Forall2_in_right {A B} (R : A -> B -> Prop) (l : list A) (l' : list B)
  (y : B) :
  Forall2 R l l' -> In y l' -> exists x, In x l /\ R x y.
Proof.
  induction 1 as [|a b l l' Hab _ IH]; intros I.
  - destruct I.
  - destruct I as [<- | I].
    + exists a. split; [ now left | exact Hab ].
    + destruct (IH I) as (x & Ix & Hx). exists x. split; [ now right | exact Hx ].
Qed.

(** Splits a list of cards written out in full around [x]. *)
Ltac split_cards x l :=
  lazymatch l with
  | x :: ?t => constr:((@nil Card.t, t))
  | ?y :: ?t =>
      let r := split_cards x t in
      lazymatch r with
      | (?a, ?b) => constr:((y :: a, b))
      end
  end.

Ltac perm_cards :=
  repeat lazymatch goal with
         | |- Permutation [] [] => apply perm_nil
         | |- Permutation (?x :: ?l) ?l' =>
             let r := split_cards x l' in
             lazymatch r with
             | (?a, ?b) =>
                 change l' with (a ++ x :: b);
                 apply Permutation_cons_app; cbn [app]
             end
         end.

(** Each candidate holds the cards kept and as many cards from the
    front of the deck as were discarded. *)
Lemma candidates_splits (h0 h1 h2 h3 h4 d0 d1 d2 d3 d4 : Card.t) :
  Forall2 (fun c kn => Permutation c (kept_and_drawn [d0; d1; d2; d3; d4] kn))
          (candidates [h0; h1; h2; h3; h4; d0; d1; d2; d3; d4])
          (splits [h0; h1; h2; h3; h4]).
Proof.
  unfold candidates, position_subsets.
  cbn [sublists splits map app firstn skipn].
  repeat (apply Forall2_cons;
          [ cbv [kept_and_drawn substitute substitute_from existsb Nat.eqb
                 orb fst snd firstn app];
            perm_cards | ]).
  apply Forall2_nil.
Qed.

Lemma five_cards (hand : list Card.t) :
  length hand = 5%nat -> exists h0 h1 h2 h3 h4, hand = [h0; h1; h2; h3; h4].
Proof.
  intros L. do 5 (destruct hand as [|? hand]; [ discriminate L | ]).
  destruct hand; [ | discriminate L ]. repeat eexists.
Qed.

Lemma candidate_counterpart (hand hand' deck c : list Card.t) :
  length hand = 5%nat -> length deck = 5%nat -> Permutation hand hand' ->
  In c (candidates (hand ++ deck)) ->
  exists c', In c' (candidates (hand' ++ deck)) /\ Permutation c c'.
Proof.
  intros L Ld P I.
  pose proof (Permutation_length P) as L'. rewrite L in L'. symmetry in L'.
  destruct (five_cards hand L) as (h0 & h1 & h2 & h3 & h4 & ->).
  destruct (five_cards hand' L') as (g0 & g1 & g2 & g3 & g4 & ->).
  destruct (five_cards deck Ld) as (d0 & d1 & d2 & d3 & d4 & ->).
  cbn [app] in *.
  destruct (Forall2_in_left _ _ _ _
              (candidates_splits h0 h1 h2 h3 h4 d0 d1 d2 d3 d4) I)
    as ([k n] & Ik & Pc).
  destruct (splits_perm _ _ P k n Ik) as (k' & Ik' & Pk).
  destruct (Forall2_in_right _ _ _ _
              (candidates_splits g0 g1 g2 g3 g4 d0 d1 d2 d3 d4) Ik')
    as (c' & Ic' & Pc').
  exists c'. split; [ exact Ic' | ].
  eapply perm_trans; [ exact Pc | ].
  eapply perm_trans; [ | apply Permutation_sym, Pc' ].
  unfold kept_and_drawn. cbn [fst snd]. now apply Permutation_app_tail.
Qed.

(** X13: the order of the cards in the hand is irrelevant.  For a hand
    of five cards and a deck of five cards, rearranging the hand does
    not change the rank of the hand the search returns, nor the name
    printed for it. *)
Theorem hand_order_irrelevant (hand hand' deck : list Card.t) :
  length hand = 5%nat -> length deck = 5%nat -> Permutation hand hand' ->
  exists best best' i r b1 b2 b3 b4,
    best_combinations (hand ++ deck) = Some best /\
    best_combinations (hand' ++ deck) = Some best' /\
    Hand.int best = Some (i, b1) /\ Hand.int best' = Some (i, b2) /\
    Hand.str best = Some (r, b3) /\ Hand.str best' = Some (r, b4).
Proof.
  intros L Ld P.
  pose proof (Permutation_length P) as L'. rewrite L in L'. symmetry in L'.
  assert (length (hand ++ deck) = 10%nat) as L10
    by (rewrite length_app; lia).
  assert (length (hand' ++ deck) = 10%nat) as L10'
    by (rewrite length_app; lia).
  destruct (best_is_top_candidate _ L10) as (b & B & C & I & M).
  destruct (best_is_top_candidate _ L10') as (b' & B' & C' & I' & M').
  assert (rank_nat (Hand.cards b) = rank_nat (Hand.cards b')) as E.
  { destruct (candidate_counterpart hand hand' deck _ L Ld P I)
      as (c' & Ic' & Pc').
    destruct (candidate_counterpart hand' hand deck _ L' Ld
                (Permutation_sym P) I') as (c & Ic & Pc).
    apply M' in Ic'. apply M in Ic.
    rewrite <- (rank_nat_perm _ _ Pc') in Ic'.
    rewrite <- (rank_nat_perm _ _ Pc) in Ic. lia. }
  destruct (evaluate_total b (proj1 C)) as (r & i & Ev & Ix & _).
  destruct (evaluate_total b' (proj1 C')) as (r' & i' & Ev' & Ix' & _).
  pose proof (int_index b r i C Ev Ix) as Hi.
  pose proof (int_index b' r' i' C' Ev' Ix') as Hi'.
  destruct (int_coherent b C) as (x & Hx & _).
  destruct (int_coherent b' C') as (x' & Hx' & _).
  assert (i = i') as <- by congruence.
  assert (r = r') as <- by (eapply list_index_inj; eassumption).
  destruct (str_coherent b C) as (s & Es & Ss).
  destruct (str_coherent b' C') as (s' & Es' & Ss').
  assert (s = r) as -> by congruence.
  assert (s' = r) as -> by congruence.
  exists b, b', i, r. do 4 eexists.
  repeat (split; [ eassumption | ]). eassumption.
Qed.

Lemma hand_order_irrelevant_witness :
  exists best best' i r b1 b2 b3 b4,
    best_combinations (firstn 5 sample_cards ++ skipn 5 sample_cards)
    = Some best /\
    best_combinations (rev (firstn 5 sample_cards) ++ skipn 5 sample_cards)
    = Some best' /\
    Hand.int best = Some (i, b1) /\ Hand.int best' = Some (i, b2) /\
    Hand.str best = Some (r, b3) /\ Hand.str best' = Some (r, b4).
Proof.
  apply (hand_order_irrelevant (firstn 5 sample_cards)
           (rev (firstn 5 sample_cards)) (skipn 5 sample_cards)).
  - vm_compute. reflexivity.
  - vm_compute. reflexivity.
  - apply Permutation_rev.
Defined.

(** ** What the categories mean *)

Ltac dec_split :=
  repeat match goal with
         | |- context [Z.eq_dec ?x ?y] => destruct (Z.eq_dec x y); try lia
         | H : context [Z.eq_dec ?x ?y] |- _ => destruct (Z.eq_dec x y); try lia
         end.

Ltac eqb_simpl :=
  repeat match goal with
         | |- context [Z.eqb ?x ?y] =>
             first [ rewrite (proj2 (Z.eqb_neq x y)) by lia
                   | rewrite (proj2 (Z.eqb_eq x y)) by lia ]
         end.

Ltac prove_cnt := cbn [count_occ]; dec_split; try lia.
Ltac refute_cnt := cbn [count_occ] in *; dec_split; try lia.

Ltac wit1 r0 r1 r2 r3 r4 tac :=
  first [ exists r0; solve [ tac ] | exists r1; solve [ tac ]
        | exists r2; solve [ tac ] | exists r3; solve [ tac ]
        | exists r4; solve [ tac ] ].

Ltac wit2 r0 r1 r2 r3 r4 tac :=
  first [ exists r0; wit1 r0 r1 r2 r3 r4 tac
        | exists r1; wit1 r0 r1 r2 r3 r4 tac
        | exists r2; wit1 r0 r1 r2 r3 r4 tac
        | exists r3; wit1 r0 r1 r2 r3 r4 tac
        | exists r4; wit1 r0 r1 r2 r3 r4 tac ].

Lemma straight_rule_distinct (r0 r1 r2 r3 r4 : Z) :
  straight_rule r0 r1 r2 r3 r4 = true ->
  r4 < r3 /\ r3 < r2 /\ r2 < r1 /\ r1 < r0.
Proof.
  unfold straight_rule.
  destruct (r0 =? r1 + 1) eqn:E1, (r1 =? r2 + 1) eqn:E2,
           (r2 =? r3 + 1) eqn:E3, (r3 =? r4 + 1) eqn:E4;
    cbn; try discriminate;
    try (destruct (r0 =? 12) eqn:E5, (r4 =? 0) eqn:E6; cbn; try discriminate);
    intros _;
    repeat match goal with H : (_ =? _) = true |- _ => apply Z.eqb_eq in H end;
    lia.
Qed.

Lemma len_set_sorted (r0 r1 r2 r3 r4 : Z) :
  r4 <= r3 -> r3 <= r2 -> r2 <= r1 -> r1 <= r0 ->
  len_set [r0; r1; r2; r3; r4] = S (breaks r0 r1 r2 r3 r4).
Proof.
  intros H1 H2 H3 H4. unfold len_set, breaks.
  cbn. dec_split; reflexivity.
Qed.

(** The name given to five descending ranks of several suits, against
    the number of times each rank occurs. *)
Lemma kinds_sorted (suits : nat) (r0 r1 r2 r3 r4 : Z) :
  suits <> 1%nat ->
  r4 <= r3 -> r3 <= r2 -> r2 <= r1 -> r1 <= r0 ->
  let name := classify suits r0 r1 r2 r3 r4 (len_set [r0; r1; r2; r3; r4]) in
  let c := count_occ Z.eq_dec [r0; r1; r2; r3; r4] in
  (name = "four-of-a-kind" <-> exists f, (4 <= c f)%nat) /\
  (name = "full-house" <-> exists f g, c f = 3%nat /\ c g = 2%nat) /\
  (name = "three-of-a-kind" <->
   (exists f, c f = 3%nat) /\ ~ (exists g, c g = 2%nat)) /\
  (name = "two-pairs" <-> exists f g, f <> g /\ c f = 2%nat /\ c g = 2%nat) /\
  (name = "one-pair" <->
   exists f, c f = 2%nat /\ forall g, g <> f -> (c g <= 1)%nat) /\
  (name = "straight" \/ name = "highest-card" <-> forall f, (c f <= 1)%nat).
Proof.
  intros Hs H1 H2 H3 H4. cbv zeta. unfold classify.
  rewrite (len_set_sorted r0 r1 r2 r3 r4 H1 H2 H3 H4). unfold breaks.
  apply Nat.eqb_neq in Hs. rewrite Hs.
  destruct (Z.eq_dec r0 r1) as [E1|E1], (Z.eq_dec r1 r2) as [E2|E2],
           (Z.eq_dec r2 r3) as [E3|E3], (Z.eq_dec r3 r4) as [E4|E4].
  all: eqb_simpl; cbn [orb andb Nat.add Nat.eqb].
  all: first [ destruct (straight_rule r0 r1 r2 r3 r4) eqn:S;
               [ apply straight_rule_distinct in S; lia | clear S ]
             | destruct (straight_rule r0 r1 r2 r3 r4) ].
  all: split;
    [ split; intros H;
      [ try discriminate H; wit1 r0 r1 r2 r3 r4 ltac:(prove_cnt)
      | try reflexivity; destruct H as (f & H); refute_cnt ] | ].
  all: split;
    [ split; intros H;
      [ try discriminate H; wit2 r0 r1 r2 r3 r4 ltac:(split; prove_cnt)
      | try reflexivity; destruct H as (f & g & Hf & Hg); refute_cnt ] | ].
  all: split;
    [ split; intros H;
      [ first [ discriminate H
              | split; [ wit1 r0 r1 r2 r3 r4 ltac:(prove_cnt)
                       | intros (g & Hg); refute_cnt ] ]
      | try reflexivity; destruct H as ((f & Hf) & Hn);
        first [ solve [ refute_cnt ]
              | exfalso; apply Hn; wit1 r0 r1 r2 r3 r4 ltac:(prove_cnt) ] ] | ].
  all: split;
    [ split; intros H;
      [ try discriminate H;
        wit2 r0 r1 r2 r3 r4 ltac:(split; [ lia | split; prove_cnt ])
      | try reflexivity; destruct H as (f & g & Hn & Hf & Hg); refute_cnt ] | ].
  all: split;
    [ split; intros H;
      [ try discriminate H;
        wit1 r0 r1 r2 r3 r4 ltac:(split; [ prove_cnt | intros g Hg; prove_cnt ])
      | try reflexivity; destruct H as (f & Hf & Hall);
        cbn [count_occ] in Hf; dec_split;
        first [ pose proof (Hall r0) as A; clear Hall; solve [ refute_cnt ]
              | pose proof (Hall r2) as A; clear Hall; solve [ refute_cnt ]
              | pose proof (Hall r4) as A; clear Hall; solve [ refute_cnt ] ] ]
    | ].
  all: split;
    [ intros [H | H]; try discriminate H; intros f; prove_cnt
    | intros H;
      first [ left; reflexivity | right; reflexivity
            | pose proof (H r0) as A0; pose proof (H r1) as A1;
              pose proof (H r2) as A2; pose proof (H r3) as A3;
              pose proof (H r4) as A4; clear H; refute_cnt ] ].
Qed.

Lemma len_set_one (l : list Z) :
  len_set l = 1%nat <-> l <> [] /\ exists s, Forall (fun x => x = s) l.
Proof.
  unfold len_set. split.
  - intros H. destruct (nodup Z.eq_dec l) as [|s [|b t]] eqn:E;
      try discriminate H.
    split.
    + intros ->. discriminate E.
    + exists s. apply Forall_forall. intros x Hx.
      apply (nodup_In Z.eq_dec) in Hx. rewrite E in Hx.
      destruct Hx as [<- | []]. reflexivity.
  - intros [Hne [s Hs]]. rewrite Forall_forall in Hs.
    pose proof (NoDup_nodup Z.eq_dec l) as N.
    destruct (nodup Z.eq_dec l) as [|a [|b t]] eqn:E.
    + destruct l as [|x l]; [ contradiction | ].
      assert (In x (nodup Z.eq_dec (x :: l))) as I
        by (apply nodup_In; now left).
      rewrite E in I. destruct I.
    + reflexivity.
    + assert (a = s) as ->
        by (apply Hs, (nodup_In Z.eq_dec); rewrite E; now left).
      assert (b = s) as ->
        by (apply Hs, (nodup_In Z.eq_dec); rewrite E; right; now left).
      inversion N as [|? ? Hn _]. exfalso. apply Hn. now left.
Qed.

Lemma one_suit_len_set (h : Hand.t) :
  length (Hand.cards h) = 5%nat ->
  (one_suit h <-> len_set (map Card.suit_only (Hand.cards h)) = 1%nat).
Proof.
  intros L. rewrite len_set_one. unfold one_suit. split.
  - intros [s Hs]. split.
    + destruct (Hand.cards h); [ discriminate L | discriminate ].
    + exists s. now apply Forall_map.
  - intros [_ [s Hs]]. exists s. now apply Forall_map in Hs.
Qed.

(** The counts of the figures of a hand, read on its sorted figures. *)
Lemma kinds_of_hand (h : Hand.t) :
  length (Hand.cards h) = 5%nat -> ~ one_suit h ->
  exists name,
    Hand.evaluate h = Some name /\
    (name = "four-of-a-kind" <-> exists f, (4 <= figure_count h f)%nat) /\
    (name = "full-house" <->
     exists f g, figure_count h f = 3%nat /\ figure_count h g = 2%nat) /\
    (name = "three-of-a-kind" <->
     (exists f, figure_count h f = 3%nat) /\
     ~ (exists g, figure_count h g = 2%nat)) /\
    (name = "two-pairs" <->
     exists f g, f <> g /\ figure_count h f = 2%nat /\
                 figure_count h g = 2%nat) /\
    (name = "one-pair" <->
     exists f, figure_count h f = 2%nat /\
               forall g, g <> f -> (figure_count h g <= 1)%nat) /\
    (name = "straight" \/ name = "highest-card" <->
     forall f, (figure_count h f <= 1)%nat).
Proof.
  intros L Hs. rewrite (one_suit_len_set h L) in Hs.
  destruct (figures_of_five h L) as (r0 & r1 & r2 & r3 & r4 & E & Hd).
  assert (forall f, figure_count h f
                    = count_occ Z.eq_dec [r0; r1; r2; r3; r4] f) as C.
  { intros f. unfold figure_count. rewrite <- E.
    apply Permutation_count_occ, Permutation_sym, sorted_reverse_perm. }
  eexists. split; [ apply (evaluate_five h _ _ _ _ _ E) | ].
  rewrite E. setoid_rewrite C.
  apply (kinds_sorted _ r0 r1 r2 r3 r4 Hs); lia.
Qed.

(** X14: for five cards that are not all of one suit, [evaluate] names
    four of a kind exactly when some figure occurs at least four times,
    a full house exactly when one figure occurs three times and another
    twice, and three of a kind exactly when a figure occurs three times
    and none occurs twice. *)
Theorem evaluate_of_a_kind (h : Hand.t) :
  length (Hand.cards h) = 5%nat -> ~ one_suit h ->
  (Hand.evaluate h = Some "four-of-a-kind" <->
   exists f, (4 <= figure_count h f)%nat) /\
  (Hand.evaluate h = Some "full-house" <->
   exists f g, figure_count h f = 3%nat /\ figure_count h g = 2%nat) /\
  (Hand.evaluate h = Some "three-of-a-kind" <->
   (exists f, figure_count h f = 3%nat) /\
   ~ (exists g, figure_count h g = 2%nat)).
Proof.
  intros L Hs.
  destruct (kinds_of_hand h L Hs) as (name & -> & K1 & K2 & K3 & _).
  rewrite <- K1, <- K2, <- K3.
  repeat split; intros H; first [ now injection H | now rewrite H ].
Qed.

Lemma sample_hand_suits : ~ one_suit sample_hand.
Proof.
  intros [s H]. vm_compute in H.
  inversion H as [|? ? A H']. inversion H' as [|? ? B H''].
  inversion H'' as [|? ? C _]. rewrite <- A in C. discriminate C.
Defined.

Lemma evaluate_of_a_kind_witness :
  (Hand.evaluate sample_hand = Some "four-of-a-kind" <->
   exists f, (4 <= figure_count sample_hand f)%nat) /\
  (Hand.evaluate sample_hand = Some "full-house" <->
   exists f g, figure_count sample_hand f = 3%nat /\
               figure_count sample_hand g = 2%nat) /\
  (Hand.evaluate sample_hand = Some "three-of-a-kind" <->
   (exists f, figure_count sample_hand f = 3%nat) /\
   ~ (exists g, figure_count sample_hand g = 2%nat)).
Proof.
  apply (evaluate_of_a_kind sample_hand).
  - vm_compute. reflexivity.
  - exact sample_hand_suits.
Defined.

(** X15: for five cards that are not all of one suit, [evaluate] names
    two pairs exactly when two different figures occur twice each, one
    pair exactly when one figure occurs twice and every other figure at
    most once, and a straight or the highest card exactly when no
    figure occurs twice. *)
Theorem evaluate_pairs (h : Hand.t) :
  length (Hand.cards h) = 5%nat -> ~ one_suit h ->
  (Hand.evaluate h = Some "two-pairs" <->
   exists f g, f <> g /\ figure_count h f = 2%nat /\
               figure_count h g = 2%nat) /\
  (Hand.evaluate h = Some "one-pair" <->
   exists f, figure_count h f = 2%nat /\
             forall g, g <> f -> (figure_count h g <= 1)%nat) /\
  (Hand.evaluate h = Some "straight" \/ Hand.evaluate h = Some "highest-card"
   <-> forall f, (figure_count h f <= 1)%nat).
Proof.
  intros L Hs.
  destruct (kinds_of_hand h L Hs) as (name & -> & _ & _ & _ & K4 & K5 & K6).
  rewrite <- K4, <- K5, <- K6.
  repeat split; intros H;
    first [ now injection H | now rewrite H
          | destruct H as [H | H]; injection H; auto
          | destruct H as [-> | ->]; auto ].
Qed.

Lemma evaluate_pairs_witness :
  (Hand.evaluate sample_hand = Some "two-pairs" <->
   exists f g, f <> g /\ figure_count sample_hand f = 2%nat /\
               figure_count sample_hand g = 2%nat) /\
  (Hand.evaluate sample_hand = Some "one-pair" <->
   exists f, figure_count sample_hand f = 2%nat /\
             forall g, g <> f -> (figure_count sample_hand g <= 1)%nat) /\
  (Hand.evaluate sample_hand = Some "straight" \/
   Hand.evaluate sample_hand = Some "highest-card"
   <-> forall f, (figure_count sample_hand f <= 1)%nat).
Proof.
  apply (evaluate_pairs sample_hand).
  - vm_compute. reflexivity.
  - exact sample_hand_suits.
Defined.

Lemma classify_several_suits (suits : nat) (r0 r1 r2 r3 r4 : Z) (d : nat) :
  suits <> 1%nat ->
  classify suits r0 r1 r2 r3 r4 d <> "flush" /\
  classify suits r0 r1 r2 r3 r4 d <> "straight-flush".
Proof.
  intros Hs. unfold classify. apply Nat.eqb_neq in Hs. rewrite Hs.
  repeat match goal with
         | |- context [if ?b then _ else _] => destruct b
         end;
    split; discriminate.
Qed.

(** X16: five cards are named a flush or a straight flush exactly when
    they are all of one suit, whatever their figures. *)
Theorem evaluate_flush (h : Hand.t) :
  length (Hand.cards h) = 5%nat ->
  (Hand.evaluate h = Some "flush" \/ Hand.evaluate h = Some "straight-flush"
   <-> one_suit h).
Proof.
  intros L. rewrite (one_suit_len_set h L).
  destruct (figures_of_five h L) as (r0 & r1 & r2 & r3 & r4 & E & _).
  rewrite (evaluate_five h _ _ _ _ _ E).
  destruct (Nat.eq_dec (len_set (map Card.suit_only (Hand.cards h))) 1)
    as [Hs | Hs].
  - split; [ intros _; exact Hs | intros _ ].
    unfold classify. rewrite Hs. cbn [Nat.eqb].
    destruct (straight_rule r0 r1 r2 r3 r4); auto.
  - destruct (classify_several_suits _ r0 r1 r2 r3 r4
                (len_set (figures_of h)) Hs) as [N1 N2].
    split; [ | contradiction ].
    intros [H | H]; injection H as H; contradiction.
Qed.

Lemma evaluate_flush_witness :
  Hand.evaluate sample_hand = Some "flush" \/
  Hand.evaluate sample_hand = Some "straight-flush"
  <-> one_suit sample_hand.
Proof.
  apply (evaluate_flush sample_hand). vm_compute. reflexivity.
Defined.

Lemma straight_rule_runs (r0 r1 r2 r3 r4 : Z) :
  straight_rule r0 r1 r2 r3 r4 = true <->
  [r0; r1; r2; r3; r4] = run_from r4 \/ [r0; r1; r2; r3; r4] = broadway_figures.
Proof.
  unfold straight_rule, run_from, broadway_figures. split.
  - destruct (r0 =? r1 + 1) eqn:E1, (r1 =? r2 + 1) eqn:E2,
             (r2 =? r3 + 1) eqn:E3, (r3 =? r4 + 1) eqn:E4;
      cbn; try discriminate;
      try (destruct (r0 =? 12) eqn:E5, (r4 =? 0) eqn:E6; cbn; try discriminate);
      intros _;
      repeat match goal with H : (_ =? _) = true |- _ => apply Z.eqb_eq in H end;
      first [ left; repeat f_equal; lia | right; repeat f_equal; lia ].
  - intros [E | E].
    + injection E as -> -> -> ->. eqb_simpl. reflexivity.
    + injection E as -> -> -> -> ->. reflexivity.
Qed.

Lemma classify_straight (suits : nat) (r0 r1 r2 r3 r4 : Z) (d : nat) :
  classify suits r0 r1 r2 r3 r4 d = "straight" \/
  classify suits r0 r1 r2 r3 r4 d = "straight-flush"
  <-> straight_rule r0 r1 r2 r3 r4 = true.
Proof.
  unfold classify. destruct (suits =? 1)%nat.
  - destruct (straight_rule r0 r1 r2 r3 r4).
    + split; auto.
    + split; [ intros [H | H]; discriminate H | discriminate ].
  - destruct (straight_rule r0 r1 r2 r3 r4) eqn:S.
    + apply straight_rule_distinct in S. eqb_simpl. cbn [orb andb]. tauto.
    + repeat match goal with
             | |- context [if ?b then _ else _] => destruct b
             end;
        (split; [ intros [H | H]; discriminate H | discriminate ]).
Qed.

Lemma run_from_sorted (k : Z) : sorted_reverse (run_from k) = run_from k.
Proof.
  apply descending_perm_eq.
  - apply sorted_reverse_descending.
  - unfold run_from. cbn [descending].
    repeat split; repeat (apply Forall_cons; [ lia | ]); apply Forall_nil.
  - apply sorted_reverse_perm.
Qed.

(** X17: five cards are named a straight or a straight flush exactly
    when their figures are five figures in a row (A counting as the
    lowest, below 2) or T, J, Q, K, A.  No other hand with an ace next
    to a king, such as Q-K-A-2-3, is a straight. *)
Theorem evaluate_straight (h : Hand.t) :
  length (Hand.cards h) = 5%nat ->
  (Hand.evaluate h = Some "straight" \/ Hand.evaluate h = Some "straight-flush"
   <->
   (exists k, Permutation (map Card.figure_only (Hand.cards h)) (run_from k)) \/
   Permutation (map Card.figure_only (Hand.cards h)) broadway_figures).
Proof.
  intros L.
  destruct (figures_of_five h L) as (r0 & r1 & r2 & r3 & r4 & E & _).
  rewrite (evaluate_five h _ _ _ _ _ E).
  assert (forall a b : string, Some a = Some b <-> a = b) as Inj
    by (intros a b; split; [ now intros [= ->] | now intros -> ]).
  rewrite !Inj, classify_straight, straight_rule_runs, <- E.
  unfold figures_of. split.
  - intros [H | H]; [ left; exists r4 | right ]; rewrite <- H;
      apply Permutation_sym, sorted_reverse_perm.
  - intros [[k P] | P]; apply sorted_reverse_of_perm in P.
    + left. rewrite P, run_from_sorted. f_equal.
      fold (figures_of h) in P. rewrite E, run_from_sorted in P.
      unfold run_from in P. now injection P as _ _ _ _ ->.
    + right. rewrite P. reflexivity.
Qed.

Lemma evaluate_straight_witness :
  Hand.evaluate wheel_hand = Some "straight" \/
  Hand.evaluate wheel_hand = Some "straight-flush"
  <->
  (exists k, Permutation (map Card.figure_only (Hand.cards wheel_hand))
                         (run_from k)) \/
  Permutation (map Card.figure_only (Hand.cards wheel_hand)) broadway_figures.
Proof.
  apply (evaluate_straight wheel_hand). vm_compute. reflexivity.
Defined.

(** ** The loop over the lines *)

Lemma read_input_cons (line : string) (fd : list string) :
  line <> "" ->
  read_input (line :: fd)
  = r <- process (PyStr.strip line) ;;
    out <- print_or_invalid r ;;
    outs <- read_input fd ;;
    Some (out :: outs).
Proof.
  intros H. destruct line; [ contradiction | reflexivity ].
Qed.

(** X18: [read_input] prints one line for each line read, in order, and
    a line is treated the same whatever comes before or after it: the
    lines printed for two inputs one after the other are the lines
    printed for the first followed by those printed for the second.
    Reading stops at the first empty string (the end of the file), and
    what follows it is not read. *)
Theorem read_input_lines (fd1 fd2 : list string) :
  Forall (fun line => line <> "") fd1 ->
  exists outs1,
    read_input fd1 = Some outs1 /\
    length outs1 = length fd1 /\
    read_input (fd1 ++ "" :: fd2) = Some outs1 /\
    exists outs2,
      read_input fd2 = Some outs2 /\
      read_input (fd1 ++ fd2) = Some (outs1 ++ outs2).
Proof.
  intros H. destruct (read_input_total fd2) as (outs2 & R2 & _).
  induction H as [|line fd1 Hne _ IH].
  - exists []. repeat split. exists outs2. auto.
  - destruct IH as (outs1 & R1 & L1 & S1 & outs2' & R2' & A).
    rewrite R2 in R2'. injection R2' as <-.
    destruct (process_total (PyStr.strip line)) as (r & out & P & Q & _).
    exists (out :: outs1). cbn [app].
    rewrite !read_input_cons by exact Hne.
    rewrite P, Q, R1, S1, A. cbn [length]. rewrite L1.
    repeat split. exists outs2. auto.
Qed.

Lemma read_input_lines_witness :
  exists outs1,
    read_input [first_sample_line; duplicate_line] = Some outs1 /\
    length outs1 = length [first_sample_line; duplicate_line] /\
    read_input ([first_sample_line; duplicate_line] ++ "" :: [eleven_line])
    = Some outs1 /\
    exists outs2,
      read_input [eleven_line] = Some outs2 /\
      read_input ([first_sample_line; duplicate_line] ++ [eleven_line])
      = Some (outs1 ++ outs2).
Proof.
  apply (read_input_lines [first_sample_line; duplicate_line] [eleven_line]).
  repeat (apply Forall_cons;
          [ intros H; vm_compute in H; discriminate H | ]).
  apply Forall_nil.
Defined.

Lemma lstrip_blank (s : string) : blank s = true -> PyStr.lstrip s = "".
Proof.
  induction s as [|c s IH]; simpl; [ reflexivity | ].
  destruct (PyStr.isspace c); [ exact IH | discriminate ].
Qed.

(** X19: a line that is not empty but holds only whitespace (a blank
    line with its end of line) does not stop the loop: [Invalid line]
    is printed for it and the following lines are read. *)
Theorem blank_line_invalid (line : string) (fd : list string) :
  line <> "" -> blank line = true ->
  exists outs,
    read_input fd = Some outs /\
    read_input (line :: fd) = Some ("Invalid line" :: outs).
Proof.
  intros Hne Hb. destruct (read_input_total fd) as (outs & R & _).
  exists outs. split; [ exact R | ].
  rewrite read_input_cons by exact Hne.
  unfold PyStr.strip. rewrite (lstrip_blank line Hb), R. reflexivity.
Qed.

Lemma blank_line_invalid_witness :
  exists outs,
    read_input [first_sample_line] = Some outs /\
    read_input (newline :: [first_sample_line])
    = Some ("Invalid line" :: outs).
Proof.
  apply (blank_line_invalid newline [first_sample_line]).
  - intros H. vm_compute in H. discriminate H.
  - vm_compute. reflexivity.
Defined.

(** ** Cards drawn from the top of the deck *)

Lemma splits_discarded (hand kept : list Card.t) (n : nat) :
  In (kept, n) (splits hand) ->
  exists discarded,
    Permutation hand (kept ++ discarded) /\ length discarded = n.
Proof.
  revert kept n. induction hand as [|c hand IH]; intros kept n I.
  - destruct I as [E | []]. injection E as <- <-. exists []. auto.
  - apply in_splits_cons in I. destruct I as [(n0 & -> & I) | (k0 & -> & I)];
      destruct (IH _ _ I) as (dis & P & L).
    + exists (c :: dis). split; [ | cbn [length]; now rewrite L ].
      now apply Permutation_cons_app.
    + exists dis. split; [ | exact L ]. cbn [app]. now apply perm_skip.
Qed.

(** X20: the hand the search returns is the dealt hand with some cards
    discarded and as many cards put in from the top of the deck: its
    cards are the cards kept together with the first cards of the deck,
    one for each card discarded. *)
Theorem best_draws_from_top (cards : list Card.t) :
  length cards = 10%nat ->
  exists best kept discarded,
    best_combinations cards = Some best /\
    Permutation (firstn 5 cards) (kept ++ discarded) /\
    Permutation (Hand.cards best)
                (kept ++ firstn (length discarded) (skipn 5 cards)).
Proof.
  intros L. destruct (best_is_top_candidate cards L) as (best & B & _ & I & _).
  destruct (ten_cards cards L)
    as (c0 & c1 & c2 & c3 & c4 & d0 & d1 & d2 & d3 & d4 & ->).
  destruct (Forall2_in_left _ _ _ _
              (candidates_splits c0 c1 c2 c3 c4 d0 d1 d2 d3 d4) I)
    as ([kept n] & Ik & Pc).
  destruct (splits_discarded _ _ _ Ik) as (dis & P & Ld).
  exists best, kept, dis. split; [ exact B | ]. split; [ exact P | ].
  rewrite Ld. exact Pc.
Qed.

Lemma best_draws_from_top_witness :
  exists best kept discarded,
    best_combinations sample_cards = Some best /\
    Permutation (firstn 5 sample_cards) (kept ++ discarded) /\
    Permutation (Hand.cards best)
                (kept ++ firstn (length discarded) (skipn 5 sample_cards)).
Proof.
  apply (best_draws_from_top sample_cards). vm_compute. reflexivity.
Defined.
